(** * eigen_utils: the rigid body state of [eigen_rigidbody.hpp]

    A shallow embedding of [eigen_utils::RigidBodyState].  A C++ [double] is a
    binary64 value of the kernel ([PrimFloat.float]), so every arithmetic
    step rounds exactly as the compiled code does; [Eigen::VectorXd] is a list
    of doubles, [Eigen::Quaterniond] a record of four doubles and [int64_t] an
    integer.  A failed [eigen_assert] / [assert] is the result [None].  A
    decimal literal denotes the nearest double, as it does in C++. *)

From Stdlib Require Import ZArith List Bool Lia Floats.
From stdpp Require Import base option list.

Set Default Proof Using "Type".
Set Warnings "-inexact-float".
Local Open Scope float_scope.

(** ** The C math library

    [sin], [cos] and [atan2] come from libm, which is no part of the
    repository and whose results are not fixed bit for bit by any standard.
    The development is parametric in them. *)

Class Libm := {
  m_sin : float -> float;
  m_cos : float -> float;
  m_atan2 : float -> float -> float
}.

(** ** The parts of Eigen the header uses

    Fixed-size vectors, quaternions (Hamilton product, conjugate, inverse,
    conversion from an angle and an axis, conversion to a rotation matrix) and
    the Euler angle extraction, written as Eigen's headers compute them in
    scalar code. *)

Module Eigen.

Record Vector3d := V3 { vx : float; vy : float; vz : float }.

Record Quaterniond := Quat { qw : float; qx : float; qy : float; qz : float }.

(** Row-major coefficients of a [Matrix3d]. *)
Record Matrix3d := M3 {
  m00 : float; m01 : float; m02 : float;
  m10 : float; m11 : float; m12 : float;
  m20 : float; m21 : float; m22 : float
}.

(** [Eigen::VectorXd]: the rows of a dynamic vector, in order. *)
Abbreviation VectorXd := (list float) (only parsing).

(** [Vector3d::Zero()], [UnitX()], [UnitY()], [UnitZ()]. *)
Definition Zero : Vector3d := V3 0 0 0.
Definition UnitX : Vector3d := V3 1 0 0.
Definition UnitY : Vector3d := V3 0 1 0.
Definition UnitZ : Vector3d := V3 0 0 1.

(** [v.squaredNorm()] and [v.norm()]: the unrolled sum of the squares, then
    the square root. *)
Definition squaredNorm3 (v : Vector3d) : float :=
  vx v * vx v + (vy v * vy v + vz v * vz v).

Definition norm (v : Vector3d) : float := sqrt (squaredNorm3 v).

(** [Vector2(a, b).norm()]. *)
Definition norm2 (a b : float) : float := sqrt (a * a + b * b).

(** [v / s] and [s * v], coefficient by coefficient. *)
Definition vdiv (v : Vector3d) (s : float) : Vector3d :=
  V3 (vx v / s) (vy v / s) (vz v / s).

Definition vscale (s : float) (v : Vector3d) : Vector3d :=
  V3 (s * vx v) (s * vy v) (s * vz v).

(** [Quaterniond::Identity()]. *)
Definition Identity : Quaterniond := Quat 1 0 0 0.

(** [a * b]: the Hamilton product. *)
Definition qmul (a b : Quaterniond) : Quaterniond :=
  Quat (qw a * qw b - qx a * qx b - qy a * qy b - qz a * qz b)
       (qw a * qx b + qx a * qw b + qy a * qz b - qz a * qy b)
       (qw a * qy b + qy a * qw b + qz a * qx b - qx a * qz b)
       (qw a * qz b + qz a * qw b + qx a * qy b - qy a * qx b).

Definition conjugate (q : Quaterniond) : Quaterniond :=
  Quat (qw q) (- qx q) (- qy q) (- qz q).

(** The squared norm of the coefficient vector [(x, y, z, w)]. *)
Definition squaredNorm (q : Quaterniond) : float :=
  (qx q * qx q + qy q * qy q) + (qz q * qz q + qw q * qw q).

(** [q.inverse()]: the conjugate over the squared norm, and the zero
    quaternion when the squared norm is not positive. *)
Definition inverse (q : Quaterniond) : Quaterniond :=
  let n2 := squaredNorm q in
  if 0 <? n2 then
    let c := conjugate q in
    Quat (qw c / n2) (qx c / n2) (qy c / n2) (qz c / n2)
  else Quat 0 0 0 0.

(** The vector part [q.vec()]. *)
Definition qvec (q : Quaterniond) : Vector3d := V3 (qx q) (qy q) (qz q).

(** [q.toRotationMatrix()]. *)
Definition toRotationMatrix (q : Quaterniond) : Matrix3d :=
  let tx := 2 * qx q in
  let ty := 2 * qy q in
  let tz := 2 * qz q in
  let twx := tx * qw q in
  let twy := ty * qw q in
  let twz := tz * qw q in
  let txx := tx * qx q in
  let txy := ty * qx q in
  let txz := tz * qx q in
  let tyy := ty * qy q in
  let tyz := tz * qy q in
  let tzz := tz * qz q in
  M3 (1 - (tyy + tzz)) (txy - twz) (txz + twy)
     (txy + twz) (1 - (txx + tzz)) (tyz - twx)
     (txz - twy) (tyz + twx) (1 - (txx + tyy)).

(** The double nearest to pi ([EIGEN_PI]). *)
Definition PI : float := 0x1.921fb54442d18p+1.

Section Trigonometric.
Context {M : Libm}.

(** [Quaterniond q; q = AngleAxisd(angle, axis);] *)
Definition fromAngleAxis (angle : float) (axis : Vector3d) : Quaterniond :=
  let ha := 0.5 * angle in
  let v := vscale (m_sin ha) axis in
  Quat (m_cos ha) (vx v) (vy v) (vz v).

(** [m.eulerAngles(2, 1, 0)] (Eigen 3.3; earlier releases differ only in the
    range they pick for the angles).  With these axes Eigen's indices are
    [odd = 1], [i = 2], [j = 1], [k = 0].  The result [res] satisfies
    [m = Rz(res[0]) * Ry(res[1]) * Rx(res[2])]: coefficient 0 is the angle
    about Z, coefficient 1 the angle about Y, coefficient 2 the angle about
    X. *)
Definition eulerAngles_2_1_0 (m : Matrix3d) : Vector3d :=
  let res0 := m_atan2 (m10 m) (m00 m) in
  let c2 := norm2 (m22 m) (m21 m) in
  let '(res0, res1) :=
    if res0 <? 0 then
      (if 0 <? res0 then res0 - PI else res0 + PI,
       m_atan2 (- m20 m) (- c2))
    else (res0, m_atan2 (- m20 m) c2) in
  let s1 := m_sin res0 in
  let c1 := m_cos res0 in
  let res2 := m_atan2 (s1 * m02 m - c1 * m12 m) (c1 * m11 m - s1 * m01 m) in
  V3 res0 res1 res2.

End Trigonometric.

(** [v += w] and [v -= w] on dynamic vectors: Eigen asserts that the sizes
    agree. *)
Definition VectorXd_add (v w : VectorXd) : option VectorXd :=
  if decide (length v = length w) then Some (zip_with PrimFloat.add v w) else None.

Definition VectorXd_sub (v w : VectorXd) : option VectorXd :=
  if decide (length v = length w) then Some (zip_with PrimFloat.sub v w) else None.

(** [v.block<3, 1>(ind, 0)] read as a value: Eigen asserts that the three
    rows lie inside the vector. *)
Definition block3 (v : VectorXd) (ind : nat) : option Vector3d :=
  x ← v !! ind;
  y ← v !! (ind + 1)%nat;
  z ← v !! (ind + 2)%nat;
  Some (V3 x y z).

(** [v.block<3, 1>(ind, 0) = b]. *)
Definition set_block3 (v : VectorXd) (ind : nat) (b : Vector3d) : option VectorXd :=
  if decide (ind + 3 ≤ length v)%nat then
    Some (<[(ind + 2)%nat := vz b]> (<[(ind + 1)%nat := vy b]> (<[ind := vx b]> v)))
  else None.

End Eigen.

Import Eigen.

(** ** Constants of the header *)

(** Gravity, air density in kg/m^3, and the gravity vector in an
    East-North-Up frame. *)
Definition g_val : float := 9.80665.
Definition rho_val : float := 1.2.
Definition g_vec : Vector3d := vscale (- g_val) UnitZ.

(** ** Records exchanged with the callers *)

(** A C array [double[4]]. *)
Record double4 := D4 { d0 : float; d1 : float; d2 : float; d3 : float }.

(** Modelled from the spec: the type [rigid_body_pose_t] is generated from a
    message definition that is not among the sources; the spec lists its
    fields as [rotationRate[3]], [velocity[3]], [position[3]],
    [acceleration[3]], [orientation[4]] and an integer [timestamp].  The
    field names are those the header uses. *)
Record rigid_body_pose_t := mkPose {
  p_utime : Z;
  pos : Vector3d;
  vel : Vector3d;
  orientation : double4;
  rotation_rate : Vector3d;
  accel : Vector3d
}.

(** [BotTrans] of bot_core, as far as the header writes it. *)
Record BotTrans := mkBotTrans { rot_quat : double4; trans_vec : Vector3d }.

(** Modelled from the spec: [quaternionToBotDouble] and
    [botDoubleToQuaternion] are declared in the header and defined in a file
    that is not among the sources.  The spec describes them as a lossless,
    bit-preserving copy between the quaternion and a fixed-order array of
    four doubles; the order is bot_core's [(w, x, y, z)]. *)
Definition quaternionToBotDouble (eig_quat : Quaterniond) : double4 :=
  D4 (qw eig_quat) (qx eig_quat) (qy eig_quat) (qz eig_quat).

(** Modelled from the spec: the inverse copy, from the array of four doubles
    in the order [(w, x, y, z)] back to the quaternion. *)
Definition botDoubleToQuaternion (bot_quat : double4) : Quaterniond :=
  Quat (d0 bot_quat) (d1 bot_quat) (d2 bot_quat) (d3 bot_quat).

(** ** The state *)

Record RigidBodyState := mkState {
  quat : Quaterniond;
  vec : VectorXd;
  utime : Z
}.

Definition angular_velocity_ind : nat := 0.
Definition velocity_ind : nat := 3.
Definition chi_ind : nat := 6.
Definition position_ind : nat := 9.
Definition acceleration_ind : nat := 12.
Definition basic_num_states : nat := 15.

Definition set_vec (s : RigidBodyState) (v : VectorXd) : RigidBodyState :=
  {| quat := quat s; vec := v; utime := utime s |}.

Definition set_quat (s : RigidBodyState) (q : Quaterniond) : RigidBodyState :=
  {| quat := q; vec := vec s; utime := utime s |}.

Definition set_utime (s : RigidBodyState) (t : Z) : RigidBodyState :=
  {| quat := quat s; vec := vec s; utime := t |}.

(** The block accessors, read. *)
Definition velocity (s : RigidBodyState) : option Vector3d := block3 (vec s) velocity_ind.
Definition chi (s : RigidBodyState) : option Vector3d := block3 (vec s) chi_ind.
Definition position (s : RigidBodyState) : option Vector3d := block3 (vec s) position_ind.
Definition angularVelocity (s : RigidBodyState) : option Vector3d :=
  block3 (vec s) angular_velocity_ind.
Definition acceleration (s : RigidBodyState) : option Vector3d :=
  block3 (vec s) acceleration_ind.

(** The block accessors, assigned to: [this->chi() = b] and the like. *)
Definition assign_block (ind : nat) (s : RigidBodyState) (b : Vector3d) : option RigidBodyState :=
  v ← set_block3 (vec s) ind b; Some (set_vec s v).

(** The tolerance [.000001] of [chiToQuat]: the double nearest to 1e-6. *)
Definition chi_tolerance : float := 0x1.0c6f7a0b5ed8dp-20.

(** [RigidBodyState(int state_dim = basic_num_states)]. *)
Definition RigidBodyState_dim (state_dim : Z) : option RigidBodyState :=
  if (state_dim <? 0)%Z then None
  else Some {| quat := Identity; vec := replicate (Z.to_nat state_dim) 0; utime := 0 |}.

(** [RigidBodyState(const Eigen::VectorXd &, const Eigen::Quaterniond &)]. *)
Definition RigidBodyState_vec_quat (arg_vec : VectorXd) (arg_quat : Quaterniond)
  : option RigidBodyState :=
  if decide (length arg_vec = basic_num_states) then
    Some {| quat := arg_quat; vec := arg_vec; utime := 0 |}
  else None.

(** The constructor from a pointer to a [rigid_body_pose_t].  [raw] is what
    the freshly allocated, not yet initialised, vector of [basic_num_states] doubles
    happens to hold. *)
Definition RigidBodyState_pose (raw : VectorXd) (pose : rigid_body_pose_t)
  : option RigidBodyState :=
  if decide (length raw = basic_num_states) then
    let s := {| quat := Identity; vec := raw; utime := 0 |} in
    s ← assign_block velocity_ind s (vel pose);
    s ← assign_block angular_velocity_ind s (rotation_rate pose);
    s ← assign_block position_ind s (pos pose);
    s ← assign_block acceleration_ind s (accel pose);
    s ← assign_block chi_ind s Zero;
    let s := set_quat s (botDoubleToQuaternion (orientation pose)) in
    Some (set_utime s (p_utime pose))
  else None.

(** [getPose]. *)
Definition getPose (s : RigidBodyState) : option rigid_body_pose_t :=
  w ← angularVelocity s;
  v ← velocity s;
  p ← position s;
  a ← acceleration s;
  Some {| p_utime := utime s; pos := p; vel := v;
          orientation := quaternionToBotDouble (quat s);
          rotation_rate := w; accel := a |}.

(** [getBotTrans]. *)
Definition getBotTrans (s : RigidBodyState) : option BotTrans :=
  delta_vec ← position s;
  Some {| rot_quat := quaternionToBotDouble (quat s); trans_vec := delta_vec |}.

(** [hasNan]: the loop over the rows, leaving at the first NaN.  [n] counts
    the iterations that remain. *)
Fixpoint hasNan_from (v : VectorXd) (ii n : nat) : bool :=
  match n with
  | O => false
  | S n' =>
      match v !! ii with
      | Some x => if is_nan x then true else hasNan_from v (S ii) n'
      | None => false
      end
  end.

Definition hasNan (s : RigidBodyState) : bool :=
  hasNan_from (vec s) 0 (length (vec s)).

Section Methods.
Context {M : Libm}.

(** [getEulerAngles]. *)
Definition getEulerAngles (s : RigidBodyState) : Vector3d :=
  eulerAngles_2_1_0 (toRotationMatrix (quat s)).

(** [setQuatEulerAngles]. *)
Definition setQuatEulerAngles (s : RigidBodyState) (eulers : Vector3d) : RigidBodyState :=
  set_quat s
    (qmul (qmul (fromAngleAxis (vz eulers) UnitZ) (fromAngleAxis (vy eulers) UnitY))
          (fromAngleAxis (vx eulers) UnitX)).

(** [chiToQuat]. *)
Definition chiToQuat (s : RigidBodyState) : option RigidBodyState :=
  c ← chi s;
  let chi_norm := norm c in
  if chi_tolerance <? chi_norm then
    let dquat := fromAngleAxis chi_norm (vdiv c chi_norm) in
    let s := set_quat s (qmul (quat s) dquat) in
    assign_block chi_ind s Zero
  else Some s.

(** Modelled from the spec: [subtractQuats] is declared in the header, with
    the comment "returns the exponential coordinates of quat1 - quat2
    (quat2.inverse() * quat1)", and defined in a file that is not among the
    sources.  The spec: the exponential coordinates of
    [quat2.inverse() * quat1], with angle [2 * atan2(|v|, w)] and axis
    [v / |v|] for the parts [(w, v)] of that relative quaternion, the result
    being angle times axis, and the zero vector when the two quaternions are
    equal (where [v] vanishes). *)
Definition subtractQuats (quat1 quat2 : Quaterniond) : Vector3d :=
  let r := qmul (inverse quat2) quat1 in
  let v := qvec r in
  let n := norm v in
  if n =? 0 then Zero
  else vscale (2 * m_atan2 n (qw r)) (vdiv v n).

(** [quatToChi]. *)
Definition quatToChi (s : RigidBodyState) : option RigidBodyState :=
  s ← assign_block chi_ind s (subtractQuats (quat s) Identity);
  Some (set_quat s Identity).

(** [RigidBodyState(const Eigen::VectorXd &)]. *)
Definition RigidBodyState_vec (arg_vec : VectorXd) : option RigidBodyState :=
  if decide (length arg_vec = basic_num_states) then
    s ← chiToQuat {| quat := Identity; vec := arg_vec; utime := 0 |};
    Some (set_utime s 0)
  else None.

(** [addState]: add state on right (postmultiplies orientation). *)
Definition addState (s state_to_add : RigidBodyState) : option RigidBodyState :=
  v ← VectorXd_add (vec s) (vec state_to_add);
  s ← chiToQuat (set_vec s v);
  Some (set_quat s (qmul (quat s) (quat state_to_add))).

(** [subtractState]: subtract state (premultiplies the inverse of the
    orientation of [state_to_subtract]). *)
Definition subtractState (s state_to_subtract : RigidBodyState) : option RigidBodyState :=
  v ← VectorXd_sub (vec s) (vec state_to_subtract);
  let s := set_vec s v in
  Some (set_quat s (qmul (inverse (quat state_to_subtract)) (quat s))).

End Methods.

(** ** The methods on objects in memory

    [addState] and [subtractState] take their argument by reference, and
    nothing prevents a caller from passing the receiver itself.  Objects
    live in a store addressed by position, and every statement of a method
    reads and writes the store, so that an argument that aliases the receiver
    sees the receiver's updates. *)

Abbreviation store := (list RigidBodyState) (only parsing).

Section StoreMethods.
Context {M : Libm}.

Definition addState_at (this state_to_add : nat) (σ : store) : option store :=
  (* this->vec += state_to_add.vec; *)
  s ← σ !! this;
  t ← σ !! state_to_add;
  v ← VectorXd_add (vec s) (vec t);
  let σ := <[this := set_vec s v]> σ in
  (* this->chiToQuat(); *)
  s ← σ !! this;
  s ← chiToQuat s;
  let σ := <[this := s]> σ in
  (* this->quat *= state_to_add.quat; *)
  s ← σ !! this;
  t ← σ !! state_to_add;
  Some (<[this := set_quat s (qmul (quat s) (quat t))]> σ).

Definition subtractState_at (this state_to_subtract : nat) (σ : store) : option store :=
  (* this->vec -= state_to_subtract.vec; *)
  s ← σ !! this;
  t ← σ !! state_to_subtract;
  v ← VectorXd_sub (vec s) (vec t);
  let σ := <[this := set_vec s v]> σ in
  (* this->quat = state_to_subtract.quat.inverse() * this->quat; *)
  s ← σ !! this;
  t ← σ !! state_to_subtract;
  Some (<[this := set_quat s (qmul (inverse (quat t)) (quat s))]> σ).

End StoreMethods.

(** ** A reference math library

    An executable [sin], [cos] and [atan2] over the doubles, by argument
    reduction and Taylor series; good to a few units in the last place on
    finite arguments of moderate size.  It lets the methods above run on
    concrete states. *)

Module RefLibm.

Definition TWO_PI : float := 0x1.921fb54442d18p+2.
Definition HALF_PI : float := 0x1.921fb54442d18p+0.

(** Brings [x] into [[-pi, pi]] by steps of [2 pi]. *)
Fixpoint reduce (fuel : nat) (x : float) : float :=
  match fuel with
  | O => x
  | S k =>
      if PI <? x then reduce k (x - TWO_PI)
      else if x <? - PI then reduce k (x + TWO_PI)
      else x
  end.

(** [n] further terms of the sine or cosine series: the next term is the
    last one times [- x2 / ((d + 1) (d + 2))]. *)
Fixpoint series (n : nat) (x2 term d acc : float) : float :=
  match n with
  | O => acc
  | S k =>
      let term' := - (term * x2) / ((d + 1) * (d + 2)) in
      series k x2 term' (d + 2) (acc + term')
  end.

Definition sin (x : float) : float :=
  let r := reduce 64 x in series 16 (r * r) r 1 r.

Definition cos (x : float) : float :=
  let r := reduce 64 x in series 16 (r * r) 1 0 1.

(** [tan (a / 2)] from [tan a]. *)
Definition halve (t : float) : float := t / (1 + sqrt (1 + t * t)).

(** [n] further terms of the arctangent series. *)
Fixpoint atan_series (n : nat) (t2 pow d acc : float) : float :=
  match n with
  | O => acc
  | S k =>
      let pow' := - (pow * t2) in
      atan_series k t2 pow' (d + 2) (acc + pow' / (d + 2))
  end.

Definition atan_small (t : float) : float :=
  let u := halve (halve (halve t)) in
  8 * atan_series 12 (u * u) u 1 u.

Definition atan (t : float) : float :=
  if 1 <? abs t then
    if 0 <? t then HALF_PI - atan_small (1 / t)
    else - HALF_PI - atan_small (1 / t)
  else atan_small t.

(** The sign bit of a double that is not NaN. *)
Definition signbit (y : float) : bool := (y <? 0) || ((y =? 0) && (1 / y <? 0)).

Definition atan2 (y x : float) : float :=
  if is_nan x || is_nan y then nan
  else if 0 <? x then atan (y / x)
  else if x <? 0 then
    if signbit y then atan (y / x) - PI else atan (y / x) + PI
  else if 0 <? y then HALF_PI
  else if y <? 0 then - HALF_PI
  else if signbit x then (if signbit y then - PI else PI)
  else y.

Definition libm : Libm := {| m_sin := sin; m_cos := cos; m_atan2 := atan2 |}.

End RefLibm.

(** ** Notions used to state the properties *)

(** [v + w] and [v - w] on fixed-size vectors. *)
Definition vadd (v w : Vector3d) : Vector3d :=
  V3 (vx v + vx w) (vy v + vy w) (vz v + vz w).

Definition vsub (v w : Vector3d) : Vector3d :=
  V3 (vx v - vx w) (vy v - vy w) (vz v - vz w).


(** [- q], which stands for the same rotation as [q]. *)
Definition qopp (q : Quaterniond) : Quaterniond :=
  Quat (- qw q) (- qx q) (- qy q) (- qz q).

Definition vec_within (tol : float) (v w : Vector3d) : bool :=
  (abs (vx v - vx w) <=? tol) && (abs (vy v - vy w) <=? tol)
  && (abs (vz v - vz w) <=? tol).

(** The perturbation is zero: every chi row compares equal to zero. *)
Definition is_zero_vec (c : Vector3d) : bool :=
  is_zero (vx c) && is_zero (vy c) && is_zero (vz c).

Definition chi_is_zero (s : RigidBodyState) : Prop :=
  exists c, chi s = Some c /\ is_zero_vec c = true.

Section Derived.
Context {M : Libm}.

(** The state [chiToQuat] leaves when it folds the perturbation [c]. *)
Definition folded (s : RigidBodyState) (c : Vector3d) : RigidBodyState :=
  {| quat := qmul (quat s) (fromAngleAxis (norm c) (vdiv c (norm c)));
     vec := <[8%nat := 0]> (<[7%nat := 0]> (<[6%nat := 0]> (vec s)));
     utime := utime s |}.


End Derived.

(** [getPose] into a record, then the constructor from that record. *)
Definition pose_round_trip (raw : VectorXd) (s : RigidBodyState) : option RigidBodyState :=
  pose ← getPose s; RigidBodyState_pose raw pose.

(** ** States used as examples *)

Module Examples.

Definition zeros15 : VectorXd := replicate 15 0.

(** Half a turn about X, nothing else. *)
Definition half_turn_x : RigidBodyState :=
  {| quat := Quat 0 1 0 0; vec := zeros15; utime := 7 |}.

(** A third of a turn about the diagonal, nothing else. *)
Definition third_turn_diag : RigidBodyState :=
  {| quat := Quat 0.5 0.5 0.5 0.5; vec := zeros15; utime := 0 |}.

(** The state of the default constructor. *)
Definition origin : RigidBodyState :=
  {| quat := Identity; vec := zeros15; utime := 0 |}.

(** Velocity (1, 0, 0), a pending perturbation of a tenth of a radian about
    Z, identity orientation. *)
Definition yaw_pending : RigidBodyState :=
  {| quat := Identity;
     vec := [0; 0; 0;  1; 0; 0;  0; 0; 0.1;  0; 0; 0;  0; 0; 0];
     utime := 0 |}.



(** A state whose position has run off to infinity. *)
Definition runaway : RigidBodyState :=
  {| quat := Identity;
     vec := [0; 0; 0;  0; 0; 0;  0; 0; 0;  infinity; neg_infinity; 0;  0; 0; 0];
     utime := 0 |}.

(** A state with every row distinct. *)
Definition busy : RigidBodyState :=
  {| quat := Quat 0.5 (-0.5) 0.5 0.5;
     vec := [1; 2; 3;  4; 5; 6;  0; 0; 0;  10; 11; 12;  13; 14; 15];
     utime := 1234567 |}.

End Examples.

(** ** Further notions and example states *)

(** The offsets of the five named blocks. *)
Definition block_inds : list nat :=
  [angular_velocity_ind; velocity_ind; chi_ind; position_ind; acceleration_ind].

(** Every component of the quaternion is NaN. *)
Definition quat_all_nan (q : Quaterniond) : bool :=
  is_nan (qw q) && is_nan (qx q) && is_nan (qy q) && is_nan (qz q).

(** Not NaN and with a clear sign bit: zero, a positive number or plus
    infinity. *)
Definition SF_nonneg (p : SpecFloat.spec_float) : Prop :=
  match p with
  | SpecFloat.S754_zero s | SpecFloat.S754_infinity s | SpecFloat.S754_finite s _ _ =>
      s = false
  | SpecFloat.S754_nan => False
  end.

Module MoreExamples.

(** [Examples.busy] with a perturbation of a tenth of a radian about Z
    assigned to its chi rows. *)
Definition busy_pending : RigidBodyState :=
  {| quat := Quat 0.5 (-0.5) 0.5 0.5;
     vec := [1; 2; 3;  4; 5; 6;  0; 0; 0.1;  10; 11; 12;  13; 14; 15];
     utime := 1234567 |}.

(** A pose record. *)
Definition a_pose : rigid_body_pose_t :=
  {| p_utime := 42; pos := V3 10 11 12; vel := V3 4 5 6;
     orientation := D4 0.5 (-0.5) 0.5 0.5;
     rotation_rate := V3 1 2 3; accel := V3 13 14 15 |}.

(** A state with a NaN velocity component. *)
Definition corrupt : RigidBodyState :=
  {| quat := Identity;
     vec := [0; 0; 0;  nan; 0; 0;  0; 0; 0;  0; 0; 0;  0; 0; 0];
     utime := 0 |}.

(** A state whose pending perturbation is infinite about X. *)
Definition blown_up : RigidBodyState :=
  {| quat := Identity;
     vec := [0; 0; 0;  0; 0; 0;  infinity; 0; 0;  0; 0; 0;  0; 0; 0];
     utime := 0 |}.

End MoreExamples.

(** * Properties *)

(** ** The reference math library on the values the examples need *)

Example ref_sin_cos_at_0 : RefLibm.sin 0 = 0 /\ RefLibm.cos 0 = 1.
Proof. split; reflexivity. Qed.

Example ref_sin_cos_at_0_05 :
  (abs (RefLibm.sin 0.05 - 0.04997916927067833) <=? 1e-16) = true
  /\ (abs (RefLibm.cos 0.05 - 0.9987502603949663) <=? 1e-16) = true.
Proof. split; vm_compute; reflexivity. Qed.

Example ref_atan2_quadrants :
  RefLibm.atan2 1 0 = 0x1.921fb54442d18p+0
  /\ RefLibm.atan2 0 1 = 0
  /\ (abs (RefLibm.atan2 1 1 - 0.7853981633974483) <=? 1e-15) = true
  /\ (abs (RefLibm.atan2 (-1) (-1) + 2.356194490192345) <=? 1e-15) = true
  /\ RefLibm.atan2 0 (-1) = PI.
Proof. repeat split; vm_compute; reflexivity. Qed.

(** ** Doubles *)

(** A double that compares equal to zero is one of the two zeros. *)
Lemma is_zero_cases (x : float) : is_zero x = true -> x = 0 \/ x = -0.
Proof.
  unfold is_zero. rewrite FloatAxioms.eqb_spec. intros H.
  assert (exists b, Prim2SF x = SpecFloat.S754_zero b) as [b Hb].
  { destruct (Prim2SF x) as [b|b| |b m e]; eauto;
      vm_compute in H; try destruct b; discriminate. }
  rewrite <- (SF2Prim_Prim2SF x), Hb. destruct b; [right|left]; reflexivity.
Qed.

(** ** Blocks of a dynamic vector *)

Lemma block3_Some (v : VectorXd) (i : nat) (c : Vector3d) :
  block3 v i = Some c <->
  v !! i = Some (vx c) /\ v !! (i + 1)%nat = Some (vy c) /\ v !! (i + 2)%nat = Some (vz c).
Proof.
  unfold block3. destruct c as [x y z]; simpl. split.
  - intros H. destruct (v !! i); simpl in H; [|done].
    destruct (v !! (i + 1)%nat); simpl in H; [|done].
    destruct (v !! (i + 2)%nat); simpl in H; [|done].
    by injection H as -> -> ->.
  - by intros (-> & -> & ->).
Qed.

Lemma block3_is_Some (v : VectorXd) (i : nat) :
  (i + 3 <= length v)%nat <-> is_Some (block3 v i).
Proof.
  split.
  - intros Hl.
    destruct (lookup_lt_is_Some_2 v i) as [x Hx]; [lia|].
    destruct (lookup_lt_is_Some_2 v (i + 1)) as [y Hy]; [lia|].
    destruct (lookup_lt_is_Some_2 v (i + 2)) as [z Hz]; [lia|].
    exists (V3 x y z). by apply block3_Some.
  - intros [c Hc]. apply block3_Some in Hc as (_ & _ & Hz).
    apply lookup_lt_Some in Hz. lia.
Qed.

Lemma set_block3_Some (v : VectorXd) (i : nat) (b : Vector3d) :
  (i + 3 <= length v)%nat ->
  set_block3 v i b =
    Some (<[(i + 2)%nat := vz b]> (<[(i + 1)%nat := vy b]> (<[i := vx b]> v))).
Proof. intros Hl. unfold set_block3. by rewrite decide_True. Qed.

Lemma set_block3_length (v v' : VectorXd) (i : nat) (b : Vector3d) :
  set_block3 v i b = Some v' -> length v' = length v /\ (i + 3 <= length v)%nat.
Proof.
  unfold set_block3. case_decide; [|done]. intros [= <-].
  by rewrite !length_insert.
Qed.

(** Reading a block back after assigning to it. *)
Lemma block3_set_block3 (v v' : VectorXd) (i : nat) (b : Vector3d) :
  set_block3 v i b = Some v' -> block3 v' i = Some b.
Proof.
  intros H. pose proof (set_block3_length _ _ _ _ H) as [_ Hl].
  rewrite set_block3_Some in H by done. injection H as <-.
  apply block3_Some. repeat split.
  - rewrite list_lookup_insert_ne by lia. rewrite list_lookup_insert_ne by lia.
    apply list_lookup_insert_eq. lia.
  - rewrite list_lookup_insert_ne by lia.
    apply list_lookup_insert_eq. rewrite length_insert. lia.
  - apply list_lookup_insert_eq. rewrite !length_insert. lia.
Qed.

(** The rows outside the block keep their value. *)
Lemma set_block3_lookup_other (v v' : VectorXd) (i j : nat) (b : Vector3d) :
  set_block3 v i b = Some v' -> (j < i \/ i + 3 <= j)%nat -> v' !! j = v !! j.
Proof.
  intros H Hj. pose proof (set_block3_length _ _ _ _ H) as [_ Hl].
  rewrite set_block3_Some in H by done. injection H as <-.
  by rewrite !list_lookup_insert_ne by lia.
Qed.

Lemma set_block3_block3_other (v v' : VectorXd) (i j : nat) (b : Vector3d) :
  set_block3 v i b = Some v' -> (j + 3 <= i \/ i + 3 <= j)%nat ->
  block3 v' j = block3 v j.
Proof.
  intros H Hj. unfold block3.
  by rewrite !(set_block3_lookup_other _ _ _ _ _ H) by lia.
Qed.

(** ** [hasNan] *)

Lemma hasNan_from_true (v : VectorXd) (n ii : nat) :
  hasNan_from v ii n = true <->
  exists i x, (ii <= i < ii + n)%nat /\ v !! i = Some x /\ is_nan x = true.
Proof.
  revert ii. induction n as [|n IH]; intros ii; simpl.
  - split; [done|]. intros (i & x & Hi & _). lia.
  - destruct (v !! ii) as [x|] eqn:Hx.
    + destruct (is_nan x) eqn:Hn.
      * split; [|done]. intros _. exists ii, x. split; [lia|done].
      * rewrite IH. split.
        -- intros (i & y & Hi & Hy). exists i, y. split; [lia|done].
        -- intros (i & y & Hi & Hy & Hny). exists i, y.
           destruct (decide (i = ii)) as [->|Hne]; [congruence|].
           split; [lia|done].
    + split; [done|]. intros (i & y & Hi & Hy & _).
      apply lookup_ge_None in Hx. apply lookup_lt_Some in Hy. lia.
Qed.

Lemma hasNan_true (s : RigidBodyState) :
  hasNan s = true <->
  exists i x, (i < length (vec s))%nat /\ vec s !! i = Some x /\ is_nan x = true.
Proof.
  unfold hasNan. rewrite hasNan_from_true. split.
  - intros (i & x & Hi & H). exists i, x. split; [lia|done].
  - intros (i & x & Hi & H). exists i, x. split; [lia|done].
Qed.

Lemma hasNan_false (s : RigidBodyState) :
  (forall i x, vec s !! i = Some x -> is_nan x = false) -> hasNan s = false.
Proof.
  intros H. destruct (hasNan s) eqn:E; [|done].
  apply hasNan_true in E as (i & x & _ & Hx & Hn).
  rewrite (H _ _ Hx) in Hn. done.
Qed.

Lemma replicate_zero_no_nan (n i : nat) (x : float) :
  replicate n 0 !! i = Some x -> is_nan x = false.
Proof. intros [-> _]%lookup_replicate_1. reflexivity. Qed.

(** C8.  For a state of fifteen rows, [hasNan] answers true exactly when one
    of the fifteen rows is NaN; the answer does not depend on the quaternion
    (its components are never read); and the state built by the default
    constructor, of any dimension, has no NaN.  The method assigns to no
    member: it is a function of the state to the answer alone. *)
Theorem hasNan_iff_some_row_is_nan (s : RigidBodyState) :
  length (vec s) = basic_num_states ->
  (hasNan s = true <->
     exists i x, (i < 15)%nat /\ vec s !! i = Some x /\ is_nan x = true)
  /\ (forall q, hasNan (set_quat s q) = hasNan s)
  /\ (forall t, hasNan (set_utime s t) = hasNan s)
  /\ (forall state_dim s0, RigidBodyState_dim state_dim = Some s0 -> hasNan s0 = false).
Proof.
  intros Hl. split; [|split; [|split]].
  - rewrite hasNan_true, Hl. reflexivity.
  - reflexivity.
  - reflexivity.
  - intros state_dim s0. unfold RigidBodyState_dim.
    destruct (state_dim <? 0)%Z; [done|]. intros [= <-].
    apply hasNan_false. simpl. apply replicate_zero_no_nan.
Qed.

(** C10.  A state whose rows hold an infinity and no NaN passes [hasNan]. *)
Theorem hasNan_misses_infinity (s : RigidBodyState) :
  (exists i x, vec s !! i = Some x /\ is_infinity x = true) ->
  (forall i x, vec s !! i = Some x -> is_nan x = false) ->
  hasNan s = false.
Proof. intros _ Hnn. by apply hasNan_false. Qed.

(** ** Comparisons of doubles *)

Lemma SFcompare_antisym (x y : SpecFloat.spec_float) :
  SpecFloat.SFcompare y x = option_map CompOpp (SpecFloat.SFcompare x y).
Proof.
  destruct x as [sx|sx| |sx mx ex], y as [sy|sy| |sy my ey]; simpl;
    try reflexivity; try (destruct sx; reflexivity); try (destruct sy; reflexivity);
    try (destruct sx, sy; reflexivity).
  destruct sx, sy; simpl; try reflexivity.
  - rewrite (Z.compare_antisym ey ex). destruct (ey ?= ex)%Z; simpl; try reflexivity.
    change (PosDef.Pos.compare_cont Eq my mx) with (Pos.compare_cont (CompOpp Eq) my mx).
    by rewrite <- Pos.compare_cont_antisym.
  - rewrite (Z.compare_antisym ey ex). destruct (ey ?= ex)%Z; simpl; try reflexivity.
    change (PosDef.Pos.compare_cont Eq my mx) with (Pos.compare_cont (CompOpp Eq) my mx).
    by rewrite <- Pos.compare_cont_antisym.
Qed.

(** [x <= y] excludes [y < x]: the two branches of a comparison with the
    tolerance do not overlap. *)
Lemma leb_true_ltb_false (x y : float) : (x <=? y) = true -> (y <? x) = false.
Proof.
  rewrite leb_spec, ltb_spec. unfold SpecFloat.SFleb, SpecFloat.SFltb.
  rewrite (SFcompare_antisym (Prim2SF x) (Prim2SF y)).
  destruct (SpecFloat.SFcompare (Prim2SF x) (Prim2SF y)) as [[]|]; simpl; congruence.
Qed.

(** ** [chiToQuat] *)

Section ChiToQuat.
Context {M : Libm}.

Lemma chi_length (s : RigidBodyState) : (9 <= length (vec s))%nat <-> is_Some (chi s).
Proof. unfold chi. rewrite <- block3_is_Some. unfold chi_ind. lia. Qed.

Lemma chiToQuat_None (s : RigidBodyState) : chi s = None -> chiToQuat s = None.
Proof. intros H. unfold chiToQuat. by rewrite H. Qed.

Lemma chiToQuat_fold (s : RigidBodyState) (c : Vector3d) :
  chi s = Some c -> (chi_tolerance <? norm c) = true ->
  chiToQuat s = Some (folded s c).
Proof.
  intros Hc Hn. unfold chiToQuat. rewrite Hc. simpl. rewrite Hn.
  unfold assign_block. simpl. rewrite set_block3_Some.
  - reflexivity.
  - apply chi_length. eauto.
Qed.

Lemma chiToQuat_keep (s : RigidBodyState) (c : Vector3d) :
  chi s = Some c -> (chi_tolerance <? norm c) = false -> chiToQuat s = Some s.
Proof. intros Hc Hn. unfold chiToQuat. rewrite Hc. simpl. by rewrite Hn. Qed.

Lemma chi_folded (s : RigidBodyState) (c : Vector3d) :
  chi s = Some c -> chi (folded s c) = Some Zero.
Proof.
  intros Hc. unfold chi, folded; simpl.
  apply (block3_set_block3 (vec s)). apply set_block3_Some.
  apply chi_length. eauto.
Qed.

Lemma folded_lookup_other (s : RigidBodyState) (c : Vector3d) (i : nat) :
  (i < 6 \/ 9 <= i)%nat -> vec (folded s c) !! i = vec s !! i.
Proof. intros Hi. unfold folded; simpl. by rewrite !list_lookup_insert_ne by lia. Qed.

Lemma folded_length (s : RigidBodyState) (c : Vector3d) :
  length (vec (folded s c)) = length (vec s).
Proof. unfold folded; simpl. by rewrite !length_insert. Qed.

Lemma chiToQuat_idempotent (s : RigidBodyState) :
  chiToQuat s ≫= chiToQuat = chiToQuat s.
Proof.
  destruct (chi s) as [c|] eqn:Hc.
  - destruct (chi_tolerance <? norm c) eqn:Hn.
    + rewrite (chiToQuat_fold s c Hc Hn). simpl.
      apply (chiToQuat_keep _ Zero); [by apply chi_folded | reflexivity].
    + rewrite (chiToQuat_keep s c Hc Hn). simpl. by apply (chiToQuat_keep _ c).
  - by rewrite chiToQuat_None.
Qed.

Lemma chiToQuat_length (s s' : RigidBodyState) :
  chiToQuat s = Some s' ->
  length (vec s') = length (vec s) /\ utime s' = utime s /\ (9 <= length (vec s))%nat.
Proof.
  intros H. destruct (chi s) as [c|] eqn:Hc.
  - assert (9 <= length (vec s))%nat by (apply chi_length; eauto).
    destruct (chi_tolerance <? norm c) eqn:Hn.
    + rewrite (chiToQuat_fold s c Hc Hn) in H. injection H as <-.
      by rewrite folded_length.
    + rewrite (chiToQuat_keep s c Hc Hn) in H. by injection H as <-.
  - by rewrite chiToQuat_None in H.
Qed.

Lemma chiToQuat_is_Some (s : RigidBodyState) :
  (9 <= length (vec s))%nat -> is_Some (chiToQuat s).
Proof.
  intros [c Hc]%chi_length.
  destruct (chi_tolerance <? norm c) eqn:Hn.
  - rewrite (chiToQuat_fold s c Hc Hn). eauto.
  - rewrite (chiToQuat_keep s c Hc Hn). eauto.
Qed.

(** C3.  With [c] the perturbation held in the chi rows: when its norm
    exceeds the tolerance, [chiToQuat] multiplies the orientation on the
    right by the quaternion of the rotation by [norm c] about [c / norm c],
    zeroes the chi rows and leaves every other row and the time stamp alone;
    when the norm is at most the tolerance the state is unchanged; and a
    second call changes nothing more. *)
Theorem chiToQuat_folds_above_tolerance (s : RigidBodyState) (c : Vector3d) :
  chi s = Some c ->
  ((chi_tolerance <? norm c) = true ->
     exists s', chiToQuat s = Some s'
       /\ quat s' = qmul (quat s) (fromAngleAxis (norm c) (vdiv c (norm c)))
       /\ chi s' = Some Zero
       /\ (forall i, (i < chi_ind \/ chi_ind + 3 <= i)%nat -> vec s' !! i = vec s !! i)
       /\ length (vec s') = length (vec s)
       /\ utime s' = utime s)
  /\ ((norm c <=? chi_tolerance) = true -> chiToQuat s = Some s)
  /\ chiToQuat s ≫= chiToQuat = chiToQuat s.
Proof.
  intros Hc. split; [|split].
  - intros Hn. exists (folded s c). split; [by apply chiToQuat_fold|].
    split; [reflexivity|]. split; [by apply chi_folded|].
    split; [|split; [apply folded_length | reflexivity]].
    intros i Hi. apply folded_lookup_other. unfold chi_ind in Hi. lia.
  - intros Hn. apply (chiToQuat_keep s c Hc). by apply leb_true_ltb_false.
  - apply chiToQuat_idempotent.
Qed.

End ChiToQuat.

(** ** [addState] and [subtractState] *)

Lemma zip_with_lookup_Some (f : float -> float -> float) (v w : list float)
    (i : nat) (x y : float) :
  v !! i = Some x -> w !! i = Some y -> zip_with f v w !! i = Some (f x y).
Proof. intros Hx Hy. rewrite lookup_zip_with, Hx. simpl. by rewrite Hy. Qed.

Lemma zip_with_same_length (f : float -> float -> float) (v w : list float) :
  length v = length w -> length (zip_with f v w) = length v.
Proof. intros H. rewrite length_zip_with. lia. Qed.

Lemma block3_zip_with (f : float -> float -> float) (v w : list float)
    (i : nat) (a b : Vector3d) :
  block3 v i = Some a -> block3 w i = Some b ->
  block3 (zip_with f v w) i = Some (V3 (f (vx a) (vx b)) (f (vy a) (vy b)) (f (vz a) (vz b))).
Proof.
  intros (Ha0 & Ha1 & Ha2)%block3_Some (Hb0 & Hb1 & Hb2)%block3_Some.
  apply block3_Some; simpl. auto using zip_with_lookup_Some.
Qed.

Section Composition.
Context {M : Libm}.

Lemma addState_unfold (s t : RigidBodyState) :
  length (vec s) = length (vec t) ->
  addState s t =
    (s1 ← chiToQuat (set_vec s (zip_with PrimFloat.add (vec s) (vec t)));
     Some (set_quat s1 (qmul (quat s1) (quat t)))).
Proof. intros Hl. unfold addState, VectorXd_add. by rewrite decide_True. Qed.

Lemma subtractState_unfold (s t : RigidBodyState) :
  length (vec s) = length (vec t) ->
  subtractState s t =
    Some {| quat := qmul (inverse (quat t)) (quat s);
            vec := zip_with PrimFloat.sub (vec s) (vec t);
            utime := utime s |}.
Proof. intros Hl. unfold subtractState, VectorXd_sub. by rewrite decide_True. Qed.


Lemma subtractState_at_distinct (σ : store) (this other : nat) (s t : RigidBodyState) :
  this <> other -> σ !! this = Some s -> σ !! other = Some t ->
  subtractState_at this other σ = (r ← subtractState s t; Some (<[this := r]> σ)).
Proof.
  intros Hne Hs Ht. pose proof (lookup_lt_Some _ _ _ Hs) as Hlt.
  unfold subtractState_at, subtractState. rewrite Hs, Ht. simpl.
  destruct (VectorXd_sub (vec s) (vec t)) as [v|]; simpl; [|done].
  rewrite list_lookup_insert_eq by done. simpl.
  rewrite !list_lookup_insert_ne, Ht by done. simpl.
  by rewrite !list_insert_insert_eq.
Qed.

Lemma addState_is_Some (s t : RigidBodyState) :
  length (vec s) = length (vec t) -> (9 <= length (vec s))%nat ->
  is_Some (addState s t).
Proof.
  intros Hl H9. rewrite addState_unfold by done.
  destruct (chiToQuat_is_Some (set_vec s (zip_with PrimFloat.add (vec s) (vec t))))
    as [s1 Hs1].
  { simpl. by rewrite zip_with_same_length. }
  rewrite Hs1. simpl. eauto.
Qed.



(** C2.  For states of equal dimension, [subtractState] replaces the vector
    by the row by row difference, chi rows included and not folded, and the
    orientation by the inverse of the argument's orientation times the
    receiver's.  The time stamp is the receiver's, and an argument that is
    another object is left as it was. *)
Theorem subtractState_subtracts_premultiplies_inverse (s t : RigidBodyState) :
  length (vec s) = length (vec t) ->
  let diff := zip_with PrimFloat.sub (vec s) (vec t) in
  (length diff = length (vec s)
   /\ forall i x y, vec s !! i = Some x -> vec t !! i = Some y -> diff !! i = Some (x - y))
  /\ subtractState s t =
       Some {| quat := qmul (inverse (quat t)) (quat s); vec := diff; utime := utime s |}
  /\ (forall r cs ct, subtractState s t = Some r -> chi s = Some cs -> chi t = Some ct ->
        chi r = Some (V3 (vx cs - vx ct) (vy cs - vy ct) (vz cs - vz ct)))
  /\ (forall (σ : store) this other,
        this <> other -> σ !! this = Some s -> σ !! other = Some t ->
        forall σ', subtractState_at this other σ = Some σ' ->
          σ' !! other = Some t /\ σ' !! this = subtractState s t).
Proof.
  intros Hl diff. split; [|split; [|split]].
  - split; [by apply zip_with_same_length|]. intros i x y. apply zip_with_lookup_Some.
  - by apply subtractState_unfold.
  - intros r cs ct. rewrite subtractState_unfold by done. intros [= <-] Hcs Hct.
    unfold chi in *. simpl. by apply block3_zip_with.
  - intros σ this other Hne Hs Ht σ'.
    rewrite (subtractState_at_distinct σ this other s t) by done.
    destruct (subtractState s t) as [r|]; simpl; [|done]. intros [= <-].
    rewrite list_lookup_insert_ne by done. split; [done|].
    apply list_lookup_insert_eq. by eapply lookup_lt_Some.
Qed.

End Composition.

(** When the argument is the receiver itself ([s.addState(s)]), the last
    statement multiplies by the orientation [chiToQuat] has just updated, not
    by the one the call started with. *)
Lemma addState_at_self {M : Libm} (σ : store) (this : nat) (s : RigidBodyState) :
  σ !! this = Some s ->
  addState_at this this σ =
    (v ← VectorXd_add (vec s) (vec s);
     s1 ← chiToQuat (set_vec s v);
     Some (<[this := set_quat s1 (qmul (quat s1) (quat s1))]> σ)).
Proof.
  intros Hs. pose proof (lookup_lt_Some _ _ _ Hs) as Hlt.
  unfold addState_at. rewrite Hs. simpl.
  destruct (VectorXd_add (vec s) (vec s)) as [v|]; simpl; [|done].
  rewrite list_lookup_insert_eq by done. simpl.
  destruct (chiToQuat (set_vec s v)) as [s1|]; simpl; [|done].
  rewrite list_lookup_insert_eq by (by rewrite length_insert). simpl.
  by rewrite !list_insert_insert_eq.
Qed.

(** ** Adding a state and taking it away again *)

Section AddThenSubtract.
Context {M : Libm}.


End AddThenSubtract.

(** ** The chi rows across the public operations *)

Lemma is_zero_add (x y : float) :
  is_zero x = true -> is_zero y = true -> is_zero (x + y) = true.
Proof. intros [->| ->]%is_zero_cases [->| ->]%is_zero_cases; reflexivity. Qed.

Lemma is_zero_sub (x y : float) :
  is_zero x = true -> is_zero y = true -> is_zero (x - y) = true.
Proof. intros [->| ->]%is_zero_cases [->| ->]%is_zero_cases; reflexivity. Qed.

Lemma is_zero_vec_components (c : Vector3d) :
  is_zero_vec c = true <->
  is_zero (vx c) = true /\ is_zero (vy c) = true /\ is_zero (vz c) = true.
Proof. unfold is_zero_vec. rewrite !andb_true_iff. tauto. Qed.

(** A zero perturbation is below the tolerance of [chiToQuat]. *)
Lemma is_zero_vec_norm (c : Vector3d) :
  is_zero_vec c = true -> (chi_tolerance <? norm c) = false.
Proof.
  destruct c as [x y z]. intros H. apply is_zero_vec_components in H. simpl in H.
  destruct H as ([->| ->]%is_zero_cases & [->| ->]%is_zero_cases & [->| ->]%is_zero_cases);
    reflexivity.
Qed.

Lemma is_zero_vec_vadd (c d : Vector3d) :
  is_zero_vec c = true -> is_zero_vec d = true -> is_zero_vec (vadd c d) = true.
Proof.
  rewrite !is_zero_vec_components. simpl. intros (?&?&?) (?&?&?).
  auto using is_zero_add.
Qed.

Lemma is_zero_vec_vsub (c d : Vector3d) :
  is_zero_vec c = true -> is_zero_vec d = true -> is_zero_vec (vsub c d) = true.
Proof.
  rewrite !is_zero_vec_components. simpl. intros (?&?&?) (?&?&?).
  auto using is_zero_sub.
Qed.

Lemma assign_block_chi (s s' : RigidBodyState) (b : Vector3d) :
  assign_block chi_ind s b = Some s' ->
  chi s' = Some b /\ quat s' = quat s /\ utime s' = utime s.
Proof.
  unfold assign_block. destruct (set_block3 (vec s) chi_ind b) as [v|] eqn:Hv; [|done].
  simpl. intros [= <-]. split; [|done]. unfold chi. simpl.
  exact (block3_set_block3 (vec s) v chi_ind b Hv).
Qed.

Lemma assign_block_chi_other (ind : nat) (s s' : RigidBodyState) (b : Vector3d) :
  (ind + 3 <= chi_ind \/ chi_ind + 3 <= ind)%nat ->
  assign_block ind s b = Some s' -> chi s' = chi s.
Proof.
  intros Hi. unfold assign_block.
  destruct (set_block3 (vec s) ind b) as [v|] eqn:Hv; [|done].
  simpl. intros [= <-]. unfold chi. simpl.
  apply (set_block3_block3_other (vec s) v ind chi_ind b); [done | lia].
Qed.

Section ChiInvariant.
Context {M : Libm}.

Lemma chiToQuat_zero (s : RigidBodyState) : chi_is_zero s -> chiToQuat s = Some s.
Proof.
  intros (c & Hc & Hz). apply (chiToQuat_keep s c Hc). by apply is_zero_vec_norm.
Qed.

Lemma quatToChi_chi (s r : RigidBodyState) :
  quatToChi s = Some r ->
  chi r = Some (subtractQuats (quat s) Identity) /\ quat r = Identity
  /\ utime r = utime s.
Proof.
  unfold quatToChi.
  destruct (assign_block chi_ind s (subtractQuats (quat s) Identity)) as [s1|] eqn:H1;
    [|done].
  simpl. intros [= <-]. apply assign_block_chi in H1 as (Hc & _ & Hu). done.
Qed.

Lemma RigidBodyState_pose_chi (raw : VectorXd) (pose : rigid_body_pose_t)
    (r : RigidBodyState) :
  RigidBodyState_pose raw pose = Some r -> chi r = Some Zero.
Proof.
  unfold RigidBodyState_pose. case_decide; [|done].
  destruct (assign_block velocity_ind _ _) as [s1|]; simpl; [|done].
  destruct (assign_block angular_velocity_ind _ _) as [s2|]; simpl; [|done].
  destruct (assign_block position_ind _ _) as [s3|]; simpl; [|done].
  destruct (assign_block acceleration_ind _ _) as [s4|]; simpl; [|done].
  destruct (assign_block chi_ind s4 Zero) as [s5|] eqn:H5; simpl; [|done].
  intros [= <-]. by apply assign_block_chi in H5 as (Hc & _).
Qed.

(** C5, as the code has it.  With the chi rows of the receiver [s] and of the
    argument [t] zero beforehand, the chi rows are zero after [addState],
    after [subtractState], after [setQuatEulerAngles], and in the states the
    constructors build (from the rows of [s], from them and a quaternion,
    from a pose record, from a dimension of at least nine); [addState] and
    [subtractState] return whenever the dimensions agree.  [quatToChi] is
    the exception: it loads the chi rows with [subtractQuats] of the
    orientation and the identity, and sets the orientation to the identity. *)
Theorem chi_stays_zero_except_quatToChi (s t : RigidBodyState) :
  chi_is_zero s -> chi_is_zero t ->
  (forall r, addState s t = Some r -> chi_is_zero r)
  /\ (forall r, subtractState s t = Some r -> chi_is_zero r)
  /\ (length (vec s) = length (vec t) ->
        is_Some (addState s t) /\ is_Some (subtractState s t))
  /\ (forall eulers, chi_is_zero (setQuatEulerAngles s eulers))
  /\ (forall r, RigidBodyState_vec (vec s) = Some r -> chi_is_zero r)
  /\ (forall q r, RigidBodyState_vec_quat (vec s) q = Some r -> chi_is_zero r)
  /\ (forall raw pose r, RigidBodyState_pose raw pose = Some r -> chi_is_zero r)
  /\ (forall state_dim r, RigidBodyState_dim state_dim = Some r ->
        (9 <= state_dim)%Z -> chi_is_zero r)
  /\ (forall r, quatToChi s = Some r ->
        chi r = Some (subtractQuats (quat s) Identity) /\ quat r = Identity).
Proof.
  intros (cs & Hcs & Hzs) (ct & Hct & Hzt).
  assert (chi_is_zero s) as Hs by (exists cs; done).
  split; [|split; [|split; [|split; [|split; [|split; [|split; [|split]]]]]]].
  - intros r. unfold addState, VectorXd_add. case_decide as Hl; [|done]. simpl.
    assert (chi_is_zero (set_vec s (zip_with PrimFloat.add (vec s) (vec t)))) as Hz.
    { exists (vadd cs ct). split; [|by apply is_zero_vec_vadd].
      unfold chi in *. simpl. by apply block3_zip_with. }
    rewrite (chiToQuat_zero _ Hz). simpl. by intros [= <-].
  - intros r. unfold subtractState, VectorXd_sub. case_decide as Hl; [|done]. simpl.
    intros [= <-]. exists (vsub cs ct). split; [|by apply is_zero_vec_vsub].
    unfold chi in *. simpl. by apply block3_zip_with.
  - intros Hl. split.
    + apply addState_is_Some; [done|]. apply chi_length. eauto.
    + rewrite subtractState_unfold by done. eauto.
  - intros eulers. exact Hs.
  - intros r. unfold RigidBodyState_vec. case_decide; [|done].
    rewrite (chiToQuat_zero {| quat := Identity; vec := vec s; utime := 0 |})
      by (exists cs; done).
    simpl. intros [= <-]. by exists cs.
  - intros q r. unfold RigidBodyState_vec_quat. case_decide; [|done].
    intros [= <-]. by exists cs.
  - intros raw pose r Hr. exists Zero. split; [|reflexivity].
    by eapply RigidBodyState_pose_chi.
  - intros state_dim r. unfold RigidBodyState_dim.
    destruct (state_dim <? 0)%Z; [done|]. intros [= <-] H9.
    exists Zero. split; [|reflexivity]. apply block3_Some. simpl.
    unfold chi_ind. repeat split; apply lookup_replicate_2; lia.
  - intros r Hr. by apply quatToChi_chi in Hr as (? & ? & _).
Qed.

End ChiInvariant.

(** ** The pose record *)

(** A vector of fifteen rows, row by row. *)
Lemma length_15_inv (v : list float) :
  length v = 15%nat ->
  exists x0 x1 x2 x3 x4 x5 x6 x7 x8 x9 x10 x11 x12 x13 x14,
    v = [x0; x1; x2; x3; x4; x5; x6; x7; x8; x9; x10; x11; x12; x13; x14].
Proof.
  intros H.
  do 15 (destruct v as [|? v]; [discriminate H|]).
  destruct v; [|discriminate H]. by repeat eexists.
Qed.

(** C7.  For a state of fifteen rows, [getPose] followed by the constructor
    from the record returns a state with the same velocity, angular
    velocity, position, acceleration and time stamp, with zero chi rows, and
    with the orientation sent through the two array conversions, which give
    it back unchanged.  Whatever the fresh vector held before the constructor
    filled it does not matter. *)
Theorem pose_round_trip_reproduces (raw : VectorXd) (s : RigidBodyState) :
  length (vec s) = basic_num_states -> length raw = basic_num_states ->
  exists r, pose_round_trip raw s = Some r
    /\ is_Some (velocity s) /\ velocity r = velocity s
    /\ is_Some (angularVelocity s) /\ angularVelocity r = angularVelocity s
    /\ is_Some (position s) /\ position r = position s
    /\ is_Some (acceleration s) /\ acceleration r = acceleration s
    /\ utime r = utime s
    /\ chi r = Some Zero
    /\ quat r = botDoubleToQuaternion (quaternionToBotDouble (quat s))
    /\ quat r = quat s
    /\ vec r = <[8%nat := 0]> (<[7%nat := 0]> (<[6%nat := 0]> (vec s))).
Proof.
  intros Hs Hraw. destruct s as [[w x y z] v t]. simpl in Hs.
  apply length_15_inv in Hs
    as (x0&x1&x2&x3&x4&x5&x6&x7&x8&x9&x10&x11&x12&x13&x14& ->).
  apply length_15_inv in Hraw
    as (r0&r1&r2&r3&r4&r5&r6&r7&r8&r9&r10&r11&r12&r13&r14& ->).
  eexists. split; [reflexivity|].
  repeat split; eauto.
Qed.

(** ** The Euler angles *)

Section EulerAngles.
Context {M : Libm}.

(** Whatever the math library, coefficient 0 of [getEulerAngles] is the
    angle about Z that [atan2] reads off the first column of the rotation
    matrix (when that angle is not negative). *)
Lemma getEulerAngles_first_coefficient (s : RigidBodyState) :
  let m := toRotationMatrix (quat s) in
  (m_atan2 (m10 m) (m00 m) <? 0) = false ->
  vx (getEulerAngles s) = m_atan2 (m10 m) (m00 m).
Proof.
  intros m H. unfold getEulerAngles, eulerAngles_2_1_0. fold m. by rewrite H.
Qed.

End EulerAngles.

(** C6, as the code has it.  On the state with identity orientation and a
    pending perturbation of 0.1 about Z, [chiToQuat] zeroes the chi rows and
    [getEulerAngles] then returns, within 1e-6, the triple (0.1, 0, 0): the
    yaw comes first, not last.  Likewise the angles last given to
    [setQuatEulerAngles] as (roll, pitch, yaw) = (0.3, 0.2, 0.1) come back
    from [getEulerAngles] as (0.1, 0.2, 0.3). *)
Theorem getEulerAngles_returns_yaw_pitch_roll :
  (exists s, chiToQuat (M := RefLibm.libm) Examples.yaw_pending = Some s
     /\ chi s = Some Zero
     /\ vec_within 1e-6 (getEulerAngles (M := RefLibm.libm) s) (V3 0.1 0 0) = true
     /\ vec_within 1e-6 (getEulerAngles (M := RefLibm.libm) s) (V3 0 0 0.1) = false)
  /\ (let s := setQuatEulerAngles (M := RefLibm.libm) Examples.origin (V3 0.3 0.2 0.1) in
      vec_within 1e-6 (getEulerAngles (M := RefLibm.libm) s) (V3 0.1 0.2 0.3) = true
      /\ vec_within 1e-6 (getEulerAngles (M := RefLibm.libm) s) (V3 0.3 0.2 0.1) = false).
Proof.
  split.
  - eexists. split; [vm_compute; reflexivity|]. repeat split; vm_compute; reflexivity.
  - split; vm_compute; reflexivity.
Qed.

(** ** Where the statements of the specification fail *)


(** C5 fails at [quatToChi]: on a state with zero chi rows whose orientation
    is a half turn about X it leaves pi in the first chi row. *)
Lemma quatToChi_leaves_chi_nonzero :
  chi_is_zero Examples.half_turn_x
  /\ exists r, quatToChi (M := RefLibm.libm) Examples.half_turn_x = Some r
       /\ chi r = Some (V3 0x1.921fb54442d18p+1 0 0)
       /\ ~ chi_is_zero r.
Proof.
  split.
  - exists Zero. split; reflexivity.
  - eexists. split; [vm_compute; reflexivity|]. split; [reflexivity|].
    intros (c & Hc & Hz). vm_compute in Hc. injection Hc as <-. vm_compute in Hz.
    discriminate.
Qed.

(** The formula of [subtractQuats] takes a half turn about X, given as the
    quaternion (0, 1, 0, 0) or as its negative, to pi about X and to pi about
    the opposite axis. *)
Lemma subtractQuats_half_turn_and_its_negative :
  subtractQuats (M := RefLibm.libm) (Quat 0 1 0 0) Identity = V3 PI 0 0
  /\ subtractQuats (M := RefLibm.libm) (qopp (Quat 0 1 0 0)) Identity = V3 (- PI) 0 0.
Proof. split; vm_compute; reflexivity. Qed.

(** Whatever the math library, [quatToChi] on the half turn about X loads
    the first chi row with twice [atan2 (1, 0)]. *)
Lemma quatToChi_half_turn_x {M : Libm} :
  exists r, quatToChi Examples.half_turn_x = Some r
    /\ chi r = Some (vscale (2 * m_atan2 1 0) (V3 1 0 0)).
Proof. eexists. split; reflexivity. Qed.

(** ** The theorems at work on the example states *)


Lemma subtractState_subtracts_premultiplies_inverse_witness :
  length (vec Examples.busy) = length (vec Examples.third_turn_diag)
  /\ subtractState Examples.busy Examples.third_turn_diag =
       Some {| quat := qmul (inverse (quat Examples.third_turn_diag)) (quat Examples.busy);
               vec := zip_with PrimFloat.sub (vec Examples.busy)
                        (vec Examples.third_turn_diag);
               utime := utime Examples.busy |}.
Proof.
  split; [reflexivity|].
  apply (subtractState_subtracts_premultiplies_inverse
           Examples.busy Examples.third_turn_diag eq_refl).
Defined.

Lemma chiToQuat_folds_above_tolerance_witness :
  chi Examples.yaw_pending = Some (V3 0 0 0.1)
  /\ (chi_tolerance <? norm (V3 0 0 0.1)) = true
  /\ (exists s', chiToQuat (M := RefLibm.libm) Examples.yaw_pending = Some s'
        /\ quat s' = qmul (quat Examples.yaw_pending)
                       (fromAngleAxis (M := RefLibm.libm) (norm (V3 0 0 0.1))
                          (vdiv (V3 0 0 0.1) (norm (V3 0 0 0.1))))
        /\ chi s' = Some Zero
        /\ (forall i, (i < chi_ind \/ chi_ind + 3 <= i)%nat ->
              vec s' !! i = vec Examples.yaw_pending !! i)
        /\ length (vec s') = length (vec Examples.yaw_pending)
        /\ utime s' = utime Examples.yaw_pending).
Proof.
  split; [reflexivity|]. split; [reflexivity|].
  apply (chiToQuat_folds_above_tolerance (M := RefLibm.libm)
           Examples.yaw_pending (V3 0 0 0.1) eq_refl).
  reflexivity.
Defined.


Lemma chi_stays_zero_except_quatToChi_witness :
  chi_is_zero Examples.origin
  /\ chi_is_zero Examples.third_turn_diag
  /\ (forall r, addState (M := RefLibm.libm) Examples.origin Examples.third_turn_diag = Some r ->
        chi_is_zero r).
Proof.
  assert (chi_is_zero Examples.origin) as H1 by (exists Zero; split; reflexivity).
  assert (chi_is_zero Examples.third_turn_diag) as H2 by (exists Zero; split; reflexivity).
  split; [exact H1|]. split; [exact H2|].
  apply (chi_stays_zero_except_quatToChi (M := RefLibm.libm)
           Examples.origin Examples.third_turn_diag H1 H2).
Defined.

Lemma pose_round_trip_reproduces_witness :
  length (vec Examples.busy) = basic_num_states
  /\ length (replicate 15 nan) = basic_num_states
  /\ exists r, pose_round_trip (replicate 15 nan) Examples.busy = Some r
       /\ velocity r = Some (V3 4 5 6)
       /\ utime r = 1234567%Z
       /\ quat r = Quat 0.5 (-0.5) 0.5 0.5.
Proof.
  split; [reflexivity|]. split; [reflexivity|].
  destruct (pose_round_trip_reproduces (replicate 15 nan) Examples.busy eq_refl eq_refl)
    as (r & Hr & _ & Hv & _ & _ & _ & _ & _ & _ & Hu & _ & _ & Hq & _).
  exists r. split; [exact Hr|]. split; [exact Hv|]. split; [exact Hu | exact Hq].
Defined.

Lemma hasNan_iff_some_row_is_nan_witness :
  length (vec Examples.runaway) = basic_num_states
  /\ (hasNan Examples.runaway = true <->
        exists i x, (i < 15)%nat /\ vec Examples.runaway !! i = Some x /\ is_nan x = true).
Proof.
  split; [reflexivity|].
  apply (hasNan_iff_some_row_is_nan Examples.runaway eq_refl).
Defined.

Lemma hasNan_misses_infinity_witness :
  vec Examples.runaway !! 9%nat = Some infinity
  /\ vec Examples.runaway !! 10%nat = Some neg_infinity
  /\ hasNan Examples.runaway = false.
Proof.
  split; [reflexivity|]. split; [reflexivity|].
  apply (hasNan_misses_infinity Examples.runaway).
  - exists 9%nat, infinity. split; reflexivity.
  - intros i x H.
    do 15 (destruct i as [|i]; [injection H as <-; reflexivity|]).
    discriminate H.
Defined.

(** * Further properties of the header *)

(** ** NaN and infinity in double arithmetic *)

Lemma SFcompare_refl (p : SpecFloat.spec_float) :
  p <> SpecFloat.S754_nan -> SpecFloat.SFcompare p p = Some Eq.
Proof.
  destruct p as [s|s| |s m e]; simpl; try done; intros _.
  - by destruct s.
  - rewrite Z.compare_refl, Pcompare_refl. by destruct s.
Qed.

Lemma is_nan_spec (x : float) : is_nan x = true <-> Prim2SF x = SpecFloat.S754_nan.
Proof.
  unfold is_nan. rewrite FloatAxioms.eqb_spec. unfold SpecFloat.SFeqb. split.
  - intros H. destruct (Prim2SF x) as [s|s| |s m e] eqn:E; [| |done|];
      rewrite SFcompare_refl in H by done; done.
  - intros ->. reflexivity.
Qed.

Lemma is_nan_false_spec (x : float) :
  is_nan x = false <-> Prim2SF x <> SpecFloat.S754_nan.
Proof. rewrite <- is_nan_spec. by destruct (is_nan x). Qed.

Lemma is_nan_add_l (x y : float) : is_nan x = true -> is_nan (x + y) = true.
Proof. rewrite !is_nan_spec, add_spec. by intros ->. Qed.

Lemma is_nan_add_r (x y : float) : is_nan y = true -> is_nan (x + y) = true.
Proof.
  rewrite !is_nan_spec, add_spec. intros ->. by destruct (Prim2SF x).
Qed.

Lemma is_nan_sub_l (x y : float) : is_nan x = true -> is_nan (x - y) = true.
Proof. rewrite !is_nan_spec, sub_spec. by intros ->. Qed.

Lemma is_nan_sub_r (x y : float) : is_nan y = true -> is_nan (x - y) = true.
Proof.
  rewrite !is_nan_spec, sub_spec. intros ->. by destruct (Prim2SF x).
Qed.

Lemma is_nan_mul_l (x y : float) : is_nan x = true -> is_nan (x * y) = true.
Proof. rewrite !is_nan_spec, mul_spec. by intros ->. Qed.

Lemma is_nan_mul_r (x y : float) : is_nan y = true -> is_nan (x * y) = true.
Proof.
  rewrite !is_nan_spec, mul_spec. intros ->. by destruct (Prim2SF x).
Qed.

Lemma is_nan_sqrt (x : float) : is_nan x = true -> is_nan (sqrt x) = true.
Proof. rewrite !is_nan_spec, sqrt_spec. by intros ->. Qed.

Lemma ltb_nan_r (x y : float) : is_nan y = true -> (x <? y) = false.
Proof.
  rewrite is_nan_spec, ltb_spec. intros ->. unfold SpecFloat.SFltb.
  by destruct (Prim2SF x).
Qed.

Lemma is_infinity_cases (x : float) :
  is_infinity x = true -> x = infinity \/ x = neg_infinity.
Proof.
  unfold is_infinity. rewrite FloatAxioms.eqb_spec, abs_spec. intros H.
  assert (exists b, Prim2SF x = SpecFloat.S754_infinity b) as [b Hb].
  { destruct (Prim2SF x) as [b|b| |b m e]; eauto; vm_compute in H; discriminate. }
  rewrite <- (SF2Prim_Prim2SF x), Hb. destruct b; [right|left]; reflexivity.
Qed.

Create HintDb nan.

#[local] Hint Resolve is_nan_add_l is_nan_add_r is_nan_sub_l is_nan_sub_r
  is_nan_mul_l is_nan_mul_r is_nan_sqrt : nan.

(** ** Squares and their sums are not negative *)

Lemma shr_1_nonneg (mrs : SpecFloat.shr_record) :
  (0 <= SpecFloat.shr_m mrs)%Z -> (0 <= SpecFloat.shr_m (SpecFloat.shr_1 mrs))%Z.
Proof. destruct mrs as [[|[p|p|]|p] r s]; simpl; lia. Qed.

Lemma iter_shr_1_nonneg (n : positive) (mrs : SpecFloat.shr_record) :
  (0 <= SpecFloat.shr_m mrs)%Z ->
  (0 <= SpecFloat.shr_m (SpecFloat.iter_pos SpecFloat.shr_1 n mrs))%Z.
Proof.
  revert mrs. induction n as [n IH|n IH|]; intros mrs H; simpl.
  - apply IH, IH. by apply shr_1_nonneg.
  - by apply IH, IH.
  - by apply shr_1_nonneg.
Qed.

Lemma shr_fexp_nonneg (prec emax m e : Z) (l : SpecFloat.location) :
  (0 <= m)%Z -> (0 <= SpecFloat.shr_m (fst (SpecFloat.shr_fexp prec emax m e l)))%Z.
Proof.
  intros H. unfold SpecFloat.shr_fexp, SpecFloat.shr.
  assert (0 <= SpecFloat.shr_m (SpecFloat.shr_record_of_loc m l))%Z
    by (destruct l as [|[]]; exact H).
  destruct (_ - e)%Z; simpl; [done| |done]. by apply iter_shr_1_nonneg.
Qed.

Lemma round_nearest_even_nonneg (m : Z) (l : SpecFloat.location) :
  (0 <= m)%Z -> (0 <= SpecFloat.round_nearest_even m l)%Z.
Proof. intros H. destruct l as [|[]]; simpl; try destruct (Z.even m); lia. Qed.

Lemma binary_round_aux_nonneg (prec emax mx ex : Z) (lx : SpecFloat.location) :
  (0 <= mx)%Z -> SF_nonneg (SpecFloat.binary_round_aux prec emax false mx ex lx).
Proof.
  intros H. unfold SpecFloat.binary_round_aux.
  pose proof (shr_fexp_nonneg prec emax mx ex lx H) as H1.
  destruct (SpecFloat.shr_fexp prec emax mx ex lx) as [mrs' e']. simpl in H1.
  pose proof (shr_fexp_nonneg prec emax _ e' SpecFloat.loc_Exact
                (round_nearest_even_nonneg _ (SpecFloat.loc_of_shr_record mrs') H1)) as H2.
  destruct (SpecFloat.shr_fexp prec emax _ e' SpecFloat.loc_Exact) as [mrs'' e''].
  simpl in H2. destruct (SpecFloat.shr_m mrs'') as [|m|m]; simpl; [done| |lia].
  by destruct (e'' <=? emax - prec)%Z.
Qed.

Lemma SFmul_self_nonneg (p : SpecFloat.spec_float) :
  p <> SpecFloat.S754_nan -> SF_nonneg (SF64mul p p).
Proof.
  destruct p as [s|s| |s m e]; simpl; intros H; try done; try by destruct s.
  rewrite xorb_nilpotent. by apply binary_round_aux_nonneg.
Qed.

Lemma SFadd_nonneg (a b : SpecFloat.spec_float) :
  SF_nonneg a -> SF_nonneg b -> SF_nonneg (SF64add a b).
Proof.
  destruct a as [sa|sa| |sa ma ea], b as [sb|sb| |sb mb eb]; simpl;
    try done; try (intros -> ->; done).
  intros -> ->. simpl. unfold SpecFloat.binary_round.
  destruct (SpecFloat.shl_align _ _ _) as [mz ez].
  by apply binary_round_aux_nonneg.
Qed.

Lemma SFadd_infinity_r (a : SpecFloat.spec_float) :
  SF_nonneg a ->
  SF64add a (SpecFloat.S754_infinity false) = SpecFloat.S754_infinity false.
Proof. destruct a as [s|s| |s m e]; simpl; try done. by intros ->. Qed.

Lemma SFadd_infinity_l (a : SpecFloat.spec_float) :
  SF_nonneg a ->
  SF64add (SpecFloat.S754_infinity false) a = SpecFloat.S754_infinity false.
Proof. destruct a as [s|s| |s m e]; simpl; try done. by intros ->. Qed.

Lemma Prim2SF_infinity (x : float) :
  Prim2SF x = SpecFloat.S754_infinity false -> x = infinity.
Proof. intros H. by rewrite <- (SF2Prim_Prim2SF x), H. Qed.

Lemma square_nonneg (x : float) : is_nan x = false -> SF_nonneg (Prim2SF (x * x)).
Proof. rewrite is_nan_false_spec, mul_spec. apply SFmul_self_nonneg. Qed.

Lemma square_infinite (x : float) :
  is_infinity x = true -> Prim2SF (x * x) = SpecFloat.S754_infinity false.
Proof. intros [->| ->]%is_infinity_cases; reflexivity. Qed.

(** A perturbation with an infinite component and no NaN has an infinite
    norm. *)
Lemma norm_infinite (c : Vector3d) :
  is_nan (vx c) = false -> is_nan (vy c) = false -> is_nan (vz c) = false ->
  is_infinity (vx c) = true \/ is_infinity (vy c) = true \/ is_infinity (vz c) = true ->
  norm c = infinity.
Proof.
  intros Hx Hy Hz Hinf. unfold norm, squaredNorm3.
  apply square_nonneg in Hx, Hy, Hz.
  assert (Prim2SF (vx c * vx c + (vy c * vy c + vz c * vz c))
          = SpecFloat.S754_infinity false) as H.
  { rewrite !add_spec. destruct Hinf as [H|[H|H]]; apply square_infinite in H.
    - rewrite H. apply SFadd_infinity_l. by apply SFadd_nonneg.
    - rewrite H, SFadd_infinity_l by done. by apply SFadd_infinity_r.
    - rewrite H, SFadd_infinity_r by done. by apply SFadd_infinity_r. }
  apply Prim2SF_infinity. by rewrite sqrt_spec, H.
Qed.

(** ** The block accessors *)

(** X1.  Assigning through one of the five block accessors and reading back:
    the block holds what was assigned, each of the other four blocks holds
    what it held, and the orientation, the time stamp and the number of rows
    are unchanged.  The assignment returns exactly when the block lies
    inside the vector. *)
Theorem assign_block_read_back (s : RigidBodyState) (b : Vector3d) (i : nat) :
  In i block_inds ->
  (is_Some (assign_block i s b) <-> (i + 3 <= length (vec s))%nat)
  /\ forall s', assign_block i s b = Some s' ->
       block3 (vec s') i = Some b
       /\ (forall j, In j block_inds -> j <> i -> block3 (vec s') j = block3 (vec s) j)
       /\ quat s' = quat s /\ utime s' = utime s
       /\ length (vec s') = length (vec s).
Proof.
  intros Hi. split.
  - unfold assign_block, set_block3. case_decide; simpl; split; eauto.
    + by intros [? ?].
    + done.
  - intros s'. unfold assign_block.
    destruct (set_block3 (vec s) i b) as [v|] eqn:Hv; [|done]. simpl.
    intros [= <-]. simpl. split; [exact (block3_set_block3 _ _ _ _ Hv)|].
    split; [|split; [done|split; [done|]]].
    + intros j Hj Hne. apply (set_block3_block3_other _ _ i j b Hv).
      unfold block_inds, angular_velocity_ind, velocity_ind, chi_ind, position_ind,
        acceleration_ind in *.
      simpl in Hi, Hj. lia.
    + by apply set_block3_length in Hv as [-> _].
Qed.

(** ** The two exports *)

(** X2.  [getPose] returns exactly when the vector has fifteen rows or more
    and [getBotTrans] exactly when it has twelve or more; where both return,
    the translation and rotation of the transform are the position and
    orientation of the pose. *)
Theorem exports_defined_and_agree (s : RigidBodyState) :
  (is_Some (getPose s) <-> (15 <= length (vec s))%nat)
  /\ (is_Some (getBotTrans s) <-> (12 <= length (vec s))%nat)
  /\ (forall p, getPose s = Some p ->
        getBotTrans s = Some {| rot_quat := orientation p; trans_vec := pos p |}).
Proof.
  unfold getPose, getBotTrans, angularVelocity, velocity, position, acceleration.
  split; [|split].
  - split.
    + intros [p Hp].
      destruct (block3 (vec s) angular_velocity_ind); simpl in Hp; [|done].
      destruct (block3 (vec s) velocity_ind); simpl in Hp; [|done].
      destruct (block3 (vec s) position_ind); simpl in Hp; [|done].
      destruct (block3 (vec s) acceleration_ind) eqn:Ha; simpl in Hp; [|done].
      assert (is_Some (block3 (vec s) acceleration_ind)) as Hs by eauto.
      apply block3_is_Some in Hs. unfold acceleration_ind in Hs. lia.
    + intros Hl.
      destruct (proj1 (block3_is_Some (vec s) angular_velocity_ind)) as [w ->];
        [unfold angular_velocity_ind; lia|].
      destruct (proj1 (block3_is_Some (vec s) velocity_ind)) as [v ->];
        [unfold velocity_ind; lia|].
      destruct (proj1 (block3_is_Some (vec s) position_ind)) as [p ->];
        [unfold position_ind; lia|].
      destruct (proj1 (block3_is_Some (vec s) acceleration_ind)) as [a ->];
        [unfold acceleration_ind; lia|].
      simpl. eauto.
  - rewrite (block3_is_Some (vec s) position_ind) by done.
    change (position_ind + 3)%nat with 12%nat.
    destruct (block3 (vec s) position_ind); simpl; split; eauto.
    + by intros [? ?].
    + by intros [? ?].
  - intros p.
    destruct (block3 (vec s) angular_velocity_ind); simpl; [|done].
    destruct (block3 (vec s) velocity_ind); simpl; [|done].
    destruct (block3 (vec s) position_ind); simpl; [|done].
    destruct (block3 (vec s) acceleration_ind); simpl; [|done].
    by intros [= <-].
Qed.

(** X3.  Neither export reads the chi rows: a state and the same state with
    anything assigned to [chi()] export the same pose and the same
    transform, so a perturbation that has not been folded is lost on export. *)
Theorem exports_ignore_chi (s s' : RigidBodyState) (b : Vector3d) :
  assign_block chi_ind s b = Some s' ->
  getPose s' = getPose s /\ getBotTrans s' = getBotTrans s.
Proof.
  intros H. unfold assign_block in H.
  destruct (set_block3 (vec s) chi_ind b) as [v|] eqn:Hv; [|done].
  simpl in H. injection H as <-.
  unfold getPose, getBotTrans, angularVelocity, velocity, position, acceleration.
  simpl.
  rewrite (set_block3_block3_other _ _ chi_ind angular_velocity_ind b Hv)
    by (unfold chi_ind, angular_velocity_ind; lia).
  rewrite (set_block3_block3_other _ _ chi_ind velocity_ind b Hv)
    by (unfold chi_ind, velocity_ind; lia).
  rewrite (set_block3_block3_other _ _ chi_ind position_ind b Hv)
    by (unfold chi_ind, position_ind; lia).
  rewrite (set_block3_block3_other _ _ chi_ind acceleration_ind b Hv)
    by (unfold chi_ind, acceleration_ind; lia).
  done.
Qed.

(** X4.  A pose record turned into a state and exported again comes back
    field for field, the orientation having gone through the two array
    conversions; the rows of the state are the record's fields with zero chi
    rows between them, whatever the fresh vector held. *)
Theorem pose_state_pose_round_trip (raw : VectorXd) (pose : rigid_body_pose_t) :
  length raw = basic_num_states ->
  exists r, RigidBodyState_pose raw pose = Some r
    /\ vec r =
         [vx (rotation_rate pose); vy (rotation_rate pose); vz (rotation_rate pose);
          vx (vel pose); vy (vel pose); vz (vel pose);
          0; 0; 0;
          vx (pos pose); vy (pos pose); vz (pos pose);
          vx (accel pose); vy (accel pose); vz (accel pose)]
    /\ quat r = botDoubleToQuaternion (orientation pose)
    /\ utime r = p_utime pose
    /\ getPose r =
         Some {| p_utime := p_utime pose; pos := pos pose; vel := vel pose;
                 orientation :=
                   quaternionToBotDouble (botDoubleToQuaternion (orientation pose));
                 rotation_rate := rotation_rate pose; accel := accel pose |}
    /\ getPose r = Some pose.
Proof.
  intros Hraw.
  apply length_15_inv in Hraw
    as (r0&r1&r2&r3&r4&r5&r6&r7&r8&r9&r10&r11&r12&r13&r14& ->).
  destruct pose as [t [p0 p1 p2] [v0 v1 v2] [o0 o1 o2 o3] [w0 w1 w2] [a0 a1 a2]].
  eexists. split; [reflexivity|]. repeat split.
Qed.

(** ** Where the composition methods return *)

Section Definedness.
Context {M : Libm}.

Lemma chiToQuat_defined (s : RigidBodyState) :
  is_Some (chiToQuat s) <-> (9 <= length (vec s))%nat.
Proof.
  split; [|apply chiToQuat_is_Some].
  intros [r Hr]. by apply chiToQuat_length in Hr as (_ & _ & ?).
Qed.

(** X5.  [addState] returns exactly when the two vectors have the same
    number of rows and that number is at least nine (the rows [chiToQuat]
    reads); [subtractState] returns exactly when the two vectors have the
    same number of rows, however few. *)
Theorem addState_subtractState_defined (s t : RigidBodyState) :
  (is_Some (addState s t) <->
     length (vec s) = length (vec t) /\ (9 <= length (vec s))%nat)
  /\ (is_Some (subtractState s t) <-> length (vec s) = length (vec t)).
Proof.
  split.
  - split.
    + intros [r Hr]. unfold addState, VectorXd_add in Hr.
      case_decide as Hl; [|done]. split; [done|]. simpl in Hr.
      destruct (chiToQuat _) as [s1|] eqn:Hs1; [|done].
      apply chiToQuat_length in Hs1 as (_ & _ & H9). simpl in H9.
      by rewrite zip_with_same_length in H9.
    + intros [Hl H9]. by apply addState_is_Some.
  - split.
    + intros [r Hr]. unfold subtractState, VectorXd_sub in Hr. by case_decide.
    + intros Hl. rewrite subtractState_unfold by done. eauto.
Qed.

(** ** The constructors *)

Lemma chiToQuat_settled (s r : RigidBodyState) :
  chiToQuat s = Some r -> chiToQuat r = Some r.
Proof. intros H. pose proof (chiToQuat_idempotent s) as Hi. by rewrite H in Hi. Qed.

(** X6.  The constructor from a vector is the constructor from that vector
    and the identity quaternion followed by [chiToQuat]; both return exactly
    when the vector has fifteen rows; the state built from a vector alone has
    time stamp zero and is left as it is by a further [chiToQuat], while the
    state built from a vector and a quaternion keeps the chi rows it was
    given. *)
Theorem RigidBodyState_vec_folds_chi (arg_vec : VectorXd) :
  RigidBodyState_vec arg_vec = RigidBodyState_vec_quat arg_vec Identity ≫= chiToQuat
  /\ (is_Some (RigidBodyState_vec arg_vec) <-> length arg_vec = basic_num_states)
  /\ (forall q, is_Some (RigidBodyState_vec_quat arg_vec q) <->
        length arg_vec = basic_num_states)
  /\ (forall r, RigidBodyState_vec arg_vec = Some r ->
        utime r = 0%Z /\ length (vec r) = basic_num_states /\ chiToQuat r = Some r)
  /\ (forall q r, RigidBodyState_vec_quat arg_vec q = Some r ->
        vec r = arg_vec /\ quat r = q /\ utime r = 0%Z).
Proof.
  assert (forall r, chiToQuat {| quat := Identity; vec := arg_vec; utime := 0 |} = Some r ->
            set_utime r 0 = r) as Hut.
  { intros r Hr. apply chiToQuat_length in Hr as (_ & Hu & _). simpl in Hu.
    destruct r as [q v u]. simpl in Hu. by subst u. }
  unfold RigidBodyState_vec, RigidBodyState_vec_quat.
  split; [|split; [|split; [|split]]].
  - case_decide; [|done]. simpl.
    destruct (chiToQuat _) as [r|] eqn:Hr; simpl; [|done]. by rewrite (Hut r eq_refl).
  - case_decide as Hl; split; try done. intros _.
    destruct (chiToQuat_is_Some {| quat := Identity; vec := arg_vec; utime := 0 |})
      as [r Hr]; [simpl; rewrite Hl; unfold basic_num_states; lia|].
    rewrite Hr. simpl. eauto.
  - intros q. case_decide; split; try done; eauto.
  - intros r. case_decide as Hl; [|done].
    destruct (chiToQuat _) as [r'|] eqn:Hr; simpl; [|done]. intros [= <-].
    rewrite (Hut r' eq_refl).
    pose proof (chiToQuat_length _ _ Hr) as (Hlen & Hu & _). simpl in *.
    split; [done|]. split; [congruence|]. by eapply chiToQuat_settled.
  - intros q r. case_decide; [|done]. by intros [= <-].
Qed.

(** X7.  The constructor from a dimension fails exactly on a negative
    dimension.  Otherwise it builds that many zero rows with the identity
    orientation and time stamp zero, whatever the dimension: on the state it
    builds, [chiToQuat] returns (and changes nothing) exactly from dimension
    nine on, and [getPose] returns exactly from dimension fifteen on. *)
Theorem RigidBodyState_dim_builds_any_dimension (state_dim : Z) :
  (RigidBodyState_dim state_dim = None <-> (state_dim < 0)%Z)
  /\ forall r, RigidBodyState_dim state_dim = Some r ->
       vec r = replicate (Z.to_nat state_dim) 0
       /\ quat r = Identity /\ utime r = 0%Z
       /\ (is_Some (chiToQuat r) <-> (9 <= state_dim)%Z)
       /\ ((9 <= state_dim)%Z -> chiToQuat r = Some r)
       /\ (is_Some (getPose r) <-> (15 <= state_dim)%Z).
Proof.
  unfold RigidBodyState_dim. destruct (state_dim <? 0)%Z eqn:Hneg.
  - split; [split; [lia|done]|done].
  - split; [split; [done|lia]|]. intros r [= <-]. simpl.
    split; [done|]. split; [done|]. split; [done|].
    split; [|split].
    + rewrite chiToQuat_defined. simpl. rewrite length_replicate. lia.
    + intros H9. apply chiToQuat_zero. exists Zero. split; [|reflexivity].
      apply block3_Some. simpl. unfold chi_ind.
      repeat split; apply lookup_replicate_2; lia.
    + rewrite (proj1 (exports_defined_and_agree _)). simpl.
      rewrite length_replicate. lia.
Qed.

(** ** A receiver passed as its own argument *)

Lemma subtractState_at_self (σ : store) (this : nat) (s : RigidBodyState) :
  σ !! this = Some s ->
  subtractState_at this this σ = (r ← subtractState s s; Some (<[this := r]> σ)).
Proof.
  intros Hs. pose proof (lookup_lt_Some _ _ _ Hs) as Hlt.
  unfold subtractState_at, subtractState. rewrite Hs. simpl.
  destruct (VectorXd_sub (vec s) (vec s)) as [v|]; simpl; [|done].
  rewrite list_lookup_insert_eq by done. simpl.
  by rewrite list_insert_insert_eq.
Qed.

(** X8.  [s.subtractState(s)] does what subtracting a copy of [s] does.
    [s.addState(s)] does not in general: its last statement multiplies the
    folded orientation by itself, where adding a copy multiplies it by the
    orientation the call started with; the two agree when [chiToQuat] finds
    the doubled perturbation within the tolerance. *)
Theorem self_argument (σ : store) (this : nat) (s : RigidBodyState) :
  σ !! this = Some s ->
  subtractState_at this this σ = (r ← subtractState s s; Some (<[this := r]> σ))
  /\ addState_at this this σ =
       (s1 ← chiToQuat (set_vec s (zip_with PrimFloat.add (vec s) (vec s)));
        Some (<[this := set_quat s1 (qmul (quat s1) (quat s1))]> σ))
  /\ addState s s =
       (s1 ← chiToQuat (set_vec s (zip_with PrimFloat.add (vec s) (vec s)));
        Some (set_quat s1 (qmul (quat s1) (quat s))))
  /\ (forall c, chi s = Some c -> (chi_tolerance <? norm (vadd c c)) = false ->
        addState_at this this σ = (r ← addState s s; Some (<[this := r]> σ))).
Proof.
  intros Hs. split; [by apply subtractState_at_self|].
  assert (addState_at this this σ =
            (s1 ← chiToQuat (set_vec s (zip_with PrimFloat.add (vec s) (vec s)));
             Some (<[this := set_quat s1 (qmul (quat s1) (quat s1))]> σ))) as Hadd.
  { rewrite (addState_at_self σ this s Hs). unfold VectorXd_add.
    by rewrite decide_True. }
  split; [exact Hadd|]. split; [by apply addState_unfold|].
  intros c Hc Hn. rewrite Hadd, addState_unfold by done.
  assert (chi (set_vec s (zip_with PrimFloat.add (vec s) (vec s))) = Some (vadd c c))
    as Hc2 by (unfold chi in *; simpl; by apply block3_zip_with).
  by rewrite (chiToQuat_keep _ _ Hc2 Hn).
Qed.

End Definedness.

(** ** NaN through the composition methods *)

Lemma norm_nan (c : Vector3d) :
  is_nan (vx c) = true \/ is_nan (vy c) = true \/ is_nan (vz c) = true ->
  is_nan (norm c) = true.
Proof.
  intros H. unfold norm, squaredNorm3. apply is_nan_sqrt.
  destruct H as [H|[H|H]]; auto 6 with nan.
Qed.

Lemma qmul_nan_r (a d : Quaterniond) :
  is_nan (qx d) = true \/ is_nan (qy d) = true \/ is_nan (qz d) = true ->
  quat_all_nan (qmul a d) = true.
Proof.
  intros H. unfold quat_all_nan, qmul. simpl. rewrite !andb_true_iff.
  destruct H as [H|[H|H]]; repeat split; auto 8 with nan.
Qed.

Lemma hasNan_row (s : RigidBodyState) (i : nat) (x : float) :
  vec s !! i = Some x -> is_nan x = true -> hasNan s = true.
Proof.
  intros Hx Hn. apply hasNan_true. exists i, x.
  split; [by eapply lookup_lt_Some|done].
Qed.

Lemma block3_row (v : VectorXd) (ind i : nat) (c : Vector3d) (x : float) :
  block3 v ind = Some c -> v !! i = Some x -> (ind <= i < ind + 3)%nat ->
  x = vx c \/ x = vy c \/ x = vz c.
Proof.
  intros (H0 & H1 & H2)%block3_Some Hx Hi.
  destruct (decide (i = ind)) as [->|]; [left; congruence|].
  destruct (decide (i = ind + 1)%nat) as [->|]; [right; left; congruence|].
  assert (i = ind + 2)%nat as -> by lia. right; right; congruence.
Qed.

Section NanPersists.
Context {M : Libm}.

Lemma chiToQuat_keeps_nan (s r : RigidBodyState) :
  hasNan s = true -> chiToQuat s = Some r -> hasNan r = true.
Proof.
  intros (i & x & _ & Hx & Hn)%hasNan_true Hr.
  destruct (chi s) as [c|] eqn:Hc; [|by rewrite chiToQuat_None in Hr].
  destruct (chi_tolerance <? norm c) eqn:Hlt.
  - rewrite (chiToQuat_fold s c Hc Hlt) in Hr. injection Hr as <-.
    destruct (decide (i < 6 \/ 9 <= i)%nat) as [Hi|Hi].
    + apply (hasNan_row _ i x); [|done]. by rewrite folded_lookup_other.
    + destruct (block3_row (vec s) chi_ind i c x Hc Hx) as [->|[->| ->]];
        [unfold chi_ind; lia| | |];
        rewrite ltb_nan_r in Hlt by (apply norm_nan; auto); done.
  - rewrite (chiToQuat_keep s c Hc Hlt) in Hr. injection Hr as <-.
    by apply (hasNan_row _ i x).
Qed.

(** X9.  A NaN in the vector of the receiver or of the argument is never
    cleared: after [addState] and after [subtractState] the receiver's vector
    holds a NaN, and [chiToQuat] keeps a NaN the vector holds (a NaN in the
    chi rows makes the norm NaN, which is not above the tolerance, so nothing
    is folded). *)
Theorem nan_is_never_cleared (s t : RigidBodyState) :
  hasNan s = true \/ hasNan t = true ->
  (forall r, addState s t = Some r -> hasNan r = true)
  /\ (forall r, subtractState s t = Some r -> hasNan r = true)
  /\ (hasNan s = true -> forall r, chiToQuat s = Some r -> hasNan r = true).
Proof.
  intros H.
  assert (forall f : float -> float -> float,
            (forall x y, is_nan x = true -> is_nan (f x y) = true) ->
            (forall x y, is_nan y = true -> is_nan (f x y) = true) ->
            length (vec s) = length (vec t) ->
            hasNan (set_vec s (zip_with f (vec s) (vec t))) = true) as Hzip.
  { intros f Hfl Hfr Hl.
    destruct H as [(i & x & Hi & Hx & Hn)%hasNan_true|(i & y & Hi & Hy & Hn)%hasNan_true].
    - destruct (lookup_lt_is_Some_2 (vec t) i) as [y Hy]; [lia|].
      apply (hasNan_row _ i (f x y)); [by apply zip_with_lookup_Some | by apply Hfl].
    - destruct (lookup_lt_is_Some_2 (vec s) i) as [x Hx]; [lia|].
      apply (hasNan_row _ i (f x y)); [by apply zip_with_lookup_Some | by apply Hfr]. }
  split; [|split].
  - intros r. unfold addState, VectorXd_add. case_decide as Hl; [|done]. simpl.
    destruct (chiToQuat _) as [s1|] eqn:Hs1; simpl; [|done]. intros [= <-].
    change (hasNan s1 = true).
    eapply chiToQuat_keeps_nan; [|exact Hs1].
    apply Hzip; auto with nan.
  - intros r. unfold subtractState, VectorXd_sub. case_decide as Hl; [|done]. simpl.
    intros [= <-].
    change (hasNan (set_vec s (zip_with PrimFloat.sub (vec s) (vec t))) = true).
    apply Hzip; auto with nan.
  - intros Hs r. by apply chiToQuat_keeps_nan.
Qed.

(** X10.  An infinite perturbation destroys the orientation behind the back
    of [hasNan]: when a chi row is plus or minus infinity and none is NaN,
    [chiToQuat] folds (the norm is infinite), every component of the
    resulting orientation is NaN whatever [sin] and [cos] return, the chi
    rows are zeroed and the other rows kept, so that [hasNan] answers false
    as soon as the rows outside chi hold no NaN. *)
Theorem chiToQuat_infinite_chi (s : RigidBodyState) (c : Vector3d) :
  chi s = Some c ->
  is_nan (vx c) = false -> is_nan (vy c) = false -> is_nan (vz c) = false ->
  is_infinity (vx c) = true \/ is_infinity (vy c) = true \/ is_infinity (vz c) = true ->
  exists r, chiToQuat s = Some r
    /\ quat_all_nan (quat r) = true
    /\ chi r = Some Zero
    /\ (forall i, (i < chi_ind \/ chi_ind + 3 <= i)%nat -> vec r !! i = vec s !! i)
    /\ ((forall i x, (i < chi_ind \/ chi_ind + 3 <= i)%nat ->
           vec s !! i = Some x -> is_nan x = false) ->
        hasNan r = false).
Proof.
  intros Hc Hx Hy Hz Hinf.
  pose proof (norm_infinite c Hx Hy Hz Hinf) as Hn.
  assert ((chi_tolerance <? norm c) = true) as Hlt by (by rewrite Hn).
  exists (folded s c). split; [by apply chiToQuat_fold|].
  assert (forall i, (i < chi_ind \/ chi_ind + 3 <= i)%nat ->
            vec (folded s c) !! i = vec s !! i) as Hother.
  { intros i Hi. apply folded_lookup_other. unfold chi_ind in Hi. lia. }
  split; [|split; [by apply chi_folded|split; [exact Hother|]]].
  - unfold folded. simpl. apply qmul_nan_r. unfold fromAngleAxis. simpl. rewrite Hn.
    destruct Hinf as [H|[H|H]]; [left|right; left|right; right];
      apply is_nan_mul_r; apply is_infinity_cases in H as [->| ->]; reflexivity.
  - intros Hrows. apply hasNan_false. intros i x Hix.
    destruct (decide (i < chi_ind \/ chi_ind + 3 <= i)%nat) as [Hi|Hi].
    + rewrite Hother in Hix by done. by eapply Hrows.
    + pose proof (chi_folded s c Hc) as Hz0.
      destruct (block3_row _ chi_ind i Zero x Hz0 Hix) as [->|[->| ->]];
        [lia|reflexivity..].
Qed.

End NanPersists.

(** ** Settled states *)

(** A second assignment to a block hides the first. *)
Lemma set_block3_twice (v v' : VectorXd) (i : nat) (b b' : Vector3d) :
  set_block3 v i b = Some v' -> set_block3 v' i b' = set_block3 v i b'.
Proof.
  intros Hv. pose proof (set_block3_length _ _ _ _ Hv) as [Hlen Hl].
  rewrite (set_block3_Some v'), (set_block3_Some v) by lia. f_equal.
  rewrite set_block3_Some in Hv by done. injection Hv as <-.
  apply list_eq. intros j.
  destruct (decide (j = i + 2)%nat) as [->|];
    [by rewrite !list_lookup_insert_eq by (rewrite ?length_insert; lia)|].
  rewrite !(list_lookup_insert_ne _ (i + 2) j) by done.
  destruct (decide (j = i + 1)%nat) as [->|];
    [by rewrite !list_lookup_insert_eq by (rewrite ?length_insert; lia)|].
  rewrite !(list_lookup_insert_ne _ (i + 1) j) by done.
  destruct (decide (j = i)) as [->|];
    [by rewrite !list_lookup_insert_eq by (rewrite ?length_insert; lia)|].
  by rewrite !list_lookup_insert_ne by done.
Qed.

Section Settled.
Context {M : Libm}.

(** X11.  What [chiToQuat] guarantees in every case: it returns exactly when
    the vector has nine rows or more; afterwards the norm of the chi rows is
    not above the tolerance, so that a further [chiToQuat] changes nothing;
    the rows outside chi, the number of rows and the time stamp are those of
    the receiver.  [addState] ends in the same settled condition. *)
Theorem chiToQuat_settles (s : RigidBodyState) :
  (is_Some (chiToQuat s) <-> (9 <= length (vec s))%nat)
  /\ (forall r, chiToQuat s = Some r ->
        (exists c', chi r = Some c' /\ (chi_tolerance <? norm c') = false)
        /\ chiToQuat r = Some r
        /\ (forall i, (i < chi_ind \/ chi_ind + 3 <= i)%nat -> vec r !! i = vec s !! i)
        /\ length (vec r) = length (vec s)
        /\ utime r = utime s)
  /\ (forall t r, addState s t = Some r ->
        (exists c', chi r = Some c' /\ (chi_tolerance <? norm c') = false)
        /\ chiToQuat r = Some r).
Proof.
  assert (forall a r, chiToQuat a = Some r ->
            exists c', chi r = Some c' /\ (chi_tolerance <? norm c') = false) as Hpost.
  { intros a r Hr. destruct (chi a) as [c|] eqn:Hc; [|by rewrite chiToQuat_None in Hr].
    destruct (chi_tolerance <? norm c) eqn:Hlt.
    - rewrite (chiToQuat_fold a c Hc Hlt) in Hr. injection Hr as <-.
      exists Zero. split; [by apply chi_folded | reflexivity].
    - rewrite (chiToQuat_keep a c Hc Hlt) in Hr. injection Hr as <-. eauto. }
  split; [apply chiToQuat_defined|]. split.
  - intros r Hr. split; [by eapply Hpost|]. split; [by eapply chiToQuat_settled|].
    pose proof (chiToQuat_length _ _ Hr) as (Hlen & Hu & _).
    split; [|done].
    intros i Hi. destruct (chi s) as [c|] eqn:Hc; [|by rewrite chiToQuat_None in Hr].
    destruct (chi_tolerance <? norm c) eqn:Hlt.
    + rewrite (chiToQuat_fold s c Hc Hlt) in Hr. injection Hr as <-.
      apply folded_lookup_other. unfold chi_ind in Hi. lia.
    + rewrite (chiToQuat_keep s c Hc Hlt) in Hr. by injection Hr as <-.
  - intros t r. unfold addState.
    destruct (VectorXd_add (vec s) (vec t)) as [v|]; simpl; [|done].
    destruct (chiToQuat (set_vec s v)) as [s1|] eqn:Hs1; simpl; [|done].
    intros [= <-]. destruct (Hpost _ _ Hs1) as (c' & Hc' & Hlt).
    assert (chi (set_quat s1 (qmul (quat s1) (quat t))) = Some c') as Hc by exact Hc'.
    split; [eauto|]. by apply (chiToQuat_keep _ c').
Qed.

(** X12.  [quatToChi] returns exactly when the vector has nine rows or more.
    It overwrites the chi rows without reading them: the result does not
    depend on what they held, so a perturbation pending there is discarded,
    not composed.  The rows outside chi, the number of rows and the time
    stamp are those of the receiver, and the orientation is the identity. *)
Theorem quatToChi_overwrites_chi (s : RigidBodyState) :
  (is_Some (quatToChi s) <-> (9 <= length (vec s))%nat)
  /\ (forall b s', assign_block chi_ind s b = Some s' -> quatToChi s' = quatToChi s)
  /\ (forall r, quatToChi s = Some r ->
        quat r = Identity
        /\ (forall i, (i < chi_ind \/ chi_ind + 3 <= i)%nat -> vec r !! i = vec s !! i)
        /\ length (vec r) = length (vec s)
        /\ utime r = utime s).
Proof.
  unfold quatToChi, assign_block. split; [|split].
  - unfold set_block3, chi_ind. simpl.
    case_decide; simpl; split; try done; eauto; lia.
  - intros b s'. destruct (set_block3 (vec s) chi_ind b) as [v|] eqn:Hv; [|done].
    simpl. intros [= <-]. simpl. by rewrite (set_block3_twice _ _ _ _ _ Hv).
  - intros r. destruct (set_block3 (vec s) chi_ind _) as [v|] eqn:Hv; [|done].
    simpl. intros [= <-]. simpl. split; [done|]. split; [|split; [|done]].
    + intros i Hi. by apply (set_block3_lookup_other _ _ _ _ _ Hv).
    + by apply set_block3_length in Hv as [-> _].
Qed.

End Settled.

(** ** Addition of doubles commutes *)

Lemma SFadd_comm (x y : SpecFloat.spec_float) : SF64add x y = SF64add y x.
Proof.
  destruct x as [sx|sx| |sx mx ex], y as [sy|sy| |sy my ey]; simpl; try reflexivity;
    try (destruct sx, sy; reflexivity).
  rewrite (Z.min_comm ey ex). f_equal. apply Z.add_comm.
Qed.

(** The doubles of the kernel have one NaN: where both sums are NaN this
    equation says no more than that. *)
Lemma add_comm (x y : float) : x + y = y + x.
Proof. apply Prim2SF_inj. rewrite !add_spec. apply SFadd_comm. Qed.



(** ** The further theorems at work on example states *)

Lemma assign_block_read_back_witness :
  In chi_ind block_inds
  /\ (is_Some (assign_block chi_ind Examples.busy (V3 0 0 0.1)) <->
        (chi_ind + 3 <= length (vec Examples.busy))%nat).
Proof.
  assert (In chi_ind block_inds) as H by (simpl; auto).
  split; [exact H|].
  apply (assign_block_read_back Examples.busy (V3 0 0 0.1) chi_ind H).
Defined.

Lemma exports_ignore_chi_witness :
  assign_block chi_ind Examples.busy (V3 0 0 0.1) = Some MoreExamples.busy_pending
  /\ getPose MoreExamples.busy_pending = getPose Examples.busy
  /\ getBotTrans MoreExamples.busy_pending = getBotTrans Examples.busy.
Proof.
  split; [reflexivity|].
  apply (exports_ignore_chi Examples.busy MoreExamples.busy_pending (V3 0 0 0.1)).
  reflexivity.
Defined.

Lemma pose_state_pose_round_trip_witness :
  length (replicate 15 nan) = basic_num_states
  /\ exists r, RigidBodyState_pose (replicate 15 nan) MoreExamples.a_pose = Some r
       /\ utime r = 42%Z
       /\ getPose r = Some MoreExamples.a_pose.
Proof.
  split; [reflexivity|].
  destruct (pose_state_pose_round_trip (replicate 15 nan) MoreExamples.a_pose eq_refl)
    as (r & Hr & _ & _ & Hu & _ & Hp).
  exists r. split; [exact Hr|]. split; [exact Hu | exact Hp].
Defined.

Lemma self_argument_witness :
  [Examples.yaw_pending] !! 0%nat = Some Examples.yaw_pending
  /\ subtractState_at 0 0 [Examples.yaw_pending] =
       (r ← subtractState Examples.yaw_pending Examples.yaw_pending;
        Some (<[0%nat := r]> [Examples.yaw_pending])).
Proof.
  split; [reflexivity|].
  apply (self_argument (M := RefLibm.libm) [Examples.yaw_pending] 0
           Examples.yaw_pending eq_refl).
Defined.

Lemma nan_is_never_cleared_witness :
  hasNan MoreExamples.corrupt = true
  /\ (forall r, addState (M := RefLibm.libm) MoreExamples.corrupt Examples.busy = Some r ->
        hasNan r = true).
Proof.
  split; [reflexivity|].
  apply (nan_is_never_cleared (M := RefLibm.libm) MoreExamples.corrupt Examples.busy).
  left. reflexivity.
Defined.

Lemma chiToQuat_infinite_chi_witness :
  chi MoreExamples.blown_up = Some (V3 infinity 0 0)
  /\ exists r, chiToQuat (M := RefLibm.libm) MoreExamples.blown_up = Some r
       /\ quat_all_nan (quat r) = true
       /\ chi r = Some Zero.
Proof.
  split; [reflexivity|].
  destruct (chiToQuat_infinite_chi (M := RefLibm.libm) MoreExamples.blown_up
              (V3 infinity 0 0) eq_refl eq_refl eq_refl eq_refl
              (or_introl eq_refl))
    as (r & Hr & Hq & Hc & _).
  exists r. split; [exact Hr|]. split; [exact Hq | exact Hc].
Defined.
